(** * The retrieval-augmented answer pipeline of [rag_pipeline.py]

    A shallow embedding of [RAGPipeline] (methods [setup_agents],
    [add_documents], [fetch_courses], [basic_rag_chain]) together with the
    Python string primitives these methods use, and the properties of the
    pipeline proved over it.

    A Python [str] is modelled by the [string] of the bytes of its UTF-8
    encoding: searching and splitting work on the bytes, while [len] and
    slices count characters (the bytes that start one).  The external
    collaborators (embedding model, vector index, course table, language
    model, clock) and the parts of Python and of the services that are not
    computed here (the float timestamp of a clock reading, [str.lower] and
    the table's [ILIKE] on arbitrary text) are explicit components of an
    environment record, and Python exceptions are explicit results of a
    small state-and-exception monad. *)

From Stdlib Require Import String Ascii List ZArith NArith Lia Bool.
From Stdlib Require Import DecimalString DecimalZ DecimalNat.
From Equations Require Import Equations.
From stdpp Require Import gmap strings list.

Local Open Scope string_scope.
Local Open Scope list_scope.

#[local] Arguments String.append !s1 s2 : simpl nomatch.
#[local] Arguments String.length !s : simpl nomatch.

(** ** Python string primitives *)

Module PyStr.

(** [s.lower()] on the ASCII letters; every other byte is kept.  A string
    is the sequence of the bytes of its UTF-8 encoding, in which a byte
    below 128 is always an ASCII character of its own.  This lowering is
    used where the code only looks for ASCII literals in the lowered text
    (the two patterns of the prompt selection, the keys of the loaders);
    the lowering of a text that is sent on is a component of the
    environment. *)
Definition lower_char (c : ascii) : ascii :=
  let n := N_of_ascii c in
  if ((65 <=? n) && (n <=? 90))%N then ascii_of_N (n + 32) else c.

Fixpoint lower (s : string) : string :=
  match s with
  | EmptyString => EmptyString
  | String c s' => String (lower_char c) (lower s')
  end.

(** [s.startswith(p)] *)
Fixpoint startswith (p s : string) : bool :=
  match p, s with
  | EmptyString, _ => true
  | String a p', String b s' => Ascii.eqb a b && startswith p' s'
  | String _ _, EmptyString => false
  end.

(** [p in s] *)
Fixpoint contains (p s : string) : bool :=
  startswith p s ||
  match s with
  | EmptyString => false
  | String _ s' => contains p s'
  end.

(** [s.find(p)], with [None] for Python's [-1]. *)
Fixpoint find (p s : string) : option nat :=
  if startswith p s then Some 0
  else match s with
       | EmptyString => None
       | String _ s' => option_map S (find p s')
       end.

(** The cuts of [split]: the bytes before and from the position [n] that
    [find] returned. *)
Fixpoint take (n : nat) (s : string) : string :=
  match n, s with
  | S n', String c s' => String c (take n' s')
  | _, _ => EmptyString
  end.

Fixpoint drop (n : nat) (s : string) : string :=
  match n, s with
  | S n', String _ s' => drop n' s'
  | _, _ => s
  end.

(** A byte [10xxxxxx], which continues a character in UTF-8. *)
Definition is_continuation (c : ascii) : bool :=
  let n := N_of_ascii c in ((128 <=? n) && (n <? 192))%N.

(** [len(s)]: the number of characters, one per byte that starts one. *)
Fixpoint len (s : string) : nat :=
  match s with
  | EmptyString => 0
  | String c s' => (if is_continuation c then 0 else 1) + len s'
  end.

(** [s[:n]] for a non-negative [n]: the first [n] characters, each with
    the bytes that continue it. *)
Fixpoint take_chars (n : nat) (s : string) : string :=
  match s with
  | EmptyString => EmptyString
  | String c s' =>
      if is_continuation c then String c (take_chars n s')
      else
        match n with
        | 0 => EmptyString
        | S n' => String c (take_chars n' s')
        end
  end.

(** [sep.join(parts)] *)
Fixpoint join (sep : string) (parts : list string) : string :=
  match parts with
  | [] => EmptyString
  | [x] => x
  | x :: rest => x +:+ sep +:+ join sep rest
  end.

Definition inspect {A : Type} (a : A) : {b : A | a = b} := exist _ a eq_refl.

(** [s.split(sep)] for a non-empty separator: cut at the first occurrence
    and go on after it.  (Python refuses the empty separator with a
    [ValueError]; the pipeline only ever splits on a fixed non-empty
    literal, and the empty separator is mapped to the unsplit string.) *)
Equations? split (sep s : string) : list string by wf (String.length s) lt :=
  split EmptyString s := [s];
  split (String a sep') s with inspect (find (String a sep') s) := {
    | exist _ None _ => [s];
    | exist _ (Some i) eqi =>
        take i s :: split (String a sep') (drop (i + String.length (String a sep')) s)
    }.
Proof.
  assert (Hd : forall n t, String.length (drop n t) = String.length t - n).
  { intros n; induction n as [|n IH]; intros [|c t]; simpl; auto with arith. }
  rewrite Hd. simpl.
  destruct s as [|c s]; simpl in *; [discriminate|lia].
Qed.

(** [parts[-1]] of a list a split produced ([d] stands for the [IndexError]
    of the empty list, which no split returns). *)
Definition last_part (parts : list string) (d : string) : string :=
  List.last parts d.

(** The spec-side reading of "[p] occurs in [s]". *)
Definition Occurs (p s : string) : Prop :=
  exists l r, s = l +:+ p +:+ r.

(** A separator no proper suffix of which is a prefix of it: two of its
    occurrences never overlap. *)
Definition unbordered (sep : string) : Prop :=
  forall d, 0 < d < String.length sep -> startswith (drop d sep) sep = false.

Fixpoint unborderedb_from (n : nat) (sep : string) : bool :=
  match n with
  | 0 => true
  | S n' =>
      (if Nat.ltb 0 n' && Nat.ltb n' (String.length sep)
       then negb (startswith (drop n' sep) sep) else true)
      && unborderedb_from n' sep
  end.

End PyStr.

(** ** Python values, exceptions and f-string formatting *)

Module PyVal.

(** The line feed of the source's ["\n"]. *)
Definition nl : string := String (ascii_of_nat 10) EmptyString.

(** The JSON values a course row holds.  A float is carried by its two
    renderings, [str(x)] and [format(x, ',')]: floating-point arithmetic is
    not interpreted. *)
Inductive value : Type :=
  | VStr (s : string)
  | VInt (z : Z)
  | VFloat (plain grouped : string)
  | VBool (b : bool)
  | VNone.

(** The exceptions the pipeline can meet: the ones Python raises on a
    dictionary or a format specification, and the ones an external service
    raises. *)
Inductive exn : Type :=
  | KeyError (key : string)
  | ValueError (msg : string)
  | TypeError (msg : string)
  | ServiceError (msg : string).

(** [str(e)] *)
Definition str_exn (e : exn) : string :=
  match e with
  | KeyError k => "'" +:+ k +:+ "'"
  | ValueError m | TypeError m | ServiceError m => m
  end.

(** The result of an expression that may raise. *)
Inductive outcome (A : Type) : Type :=
  | Ok (a : A)
  | Raise (e : exn).
Arguments Ok {A} a.
Arguments Raise {A} e.

(** [str(n)] for integers. *)
Definition str_of_nat (n : nat) : string :=
  NilZero.string_of_uint (Nat.to_uint n).

Definition str_of_Z (z : Z) : string :=
  NilZero.string_of_int (Z.to_int z).

(** A comma before every group of three digits, counted from the right. *)
Fixpoint group3 (digits : string) : string :=
  match digits with
  | EmptyString => EmptyString
  | String c rest =>
      if Nat.ltb 0 (String.length rest) && Nat.eqb (String.length rest mod 3) 0
      then String c ("," +:+ group3 rest)
      else String c (group3 rest)
  end.

(** [format(z, ',')] *)
Definition group_Z (z : Z) : string :=
  if (z <? 0)%Z then "-" +:+ group3 (str_of_Z (- z)) else group3 (str_of_Z z).

(** [f"{v}"] *)
Definition format_plain (v : value) : string :=
  match v with
  | VStr s => s
  | VInt z => str_of_Z z
  | VFloat plain _ => plain
  | VBool true => "True"
  | VBool false => "False"
  | VNone => "None"
  end.

(** [f"{v:,}"] *)
Definition format_comma (v : value) : outcome string :=
  match v with
  | VStr _ => Raise (ValueError "Cannot specify ',' with 's'.")
  | VInt z => Ok (group_Z z)
  | VFloat _ grouped => Ok grouped
  | VBool true => Ok "1"
  | VBool false => Ok "0"
  | VNone => Raise (TypeError "unsupported format string passed to NoneType.__format__")
  end.

(** [d[key]] and [d.get(key, default)] on a dictionary with string keys. *)
Definition getitem {A : Type} (d : gmap string A) (key : string) : outcome A :=
  match d !! key with
  | Some v => Ok v
  | None => Raise (KeyError key)
  end.

Definition get_default {A : Type} (d : gmap string A) (key : string) (default : A) : A :=
  match d !! key with
  | Some v => v
  | None => default
  end.

End PyVal.

Import PyStr PyVal.

(** ** The external collaborators *)

Section Pipeline.

(** The embedding vectors (384 floats in the source) are only handed from
    the embedding model to the index: their type is left open. *)
Context {Vec : Type}.

(** *** The vector index *)

(** The payload [add_documents] attaches to a point. *)
Record Payload : Type := {
  p_content : string;
  p_user_id : string;
  p_source : string;
  p_uploaded_at : string }.

Record Point : Type := {
  point_id : string;
  point_vector : Vec;
  point_payload : Payload }.

(** [{"must": [{"key": k, "match": {"value": v}}, ...]}] *)
Record Condition : Type := { cond_key : string; cond_value : string }.
Record QFilter : Type := { must : list Condition }.

Definition payload_field (pl : Payload) (key : string) : option string :=
  if String.eqb key "content" then Some (p_content pl)
  else if String.eqb key "user_id" then Some (p_user_id pl)
  else if String.eqb key "source" then Some (p_source pl)
  else if String.eqb key "uploaded_at" then Some (p_uploaded_at pl)
  else None.

Definition cond_holds (p : Point) (c : Condition) : bool :=
  match payload_field (point_payload p) (cond_key c) with
  | Some v => String.eqb v (cond_value c)
  | None => false
  end.

Definition satisfies (flt : QFilter) (p : Point) : bool :=
  forallb (cond_holds p) (must flt).

(** An upsert overwrites the stored point of the same id, and appends a
    point whose id is new. *)
Fixpoint upsert_point (p : Point) (stored : list Point) : list Point :=
  match stored with
  | [] => [p]
  | q :: rest =>
      if String.eqb (point_id q) (point_id p) then p :: rest
      else q :: upsert_point p rest
  end.

Definition upsert_points (ps stored : list Point) : list Point :=
  fold_left (fun st p => upsert_point p st) ps stored.

(** Ranking by similarity to the query vector: a stable insertion sort
    under the index's comparison. *)
Fixpoint rank_insert (before : Point -> Point -> bool) (p : Point)
    (sorted : list Point) : list Point :=
  match sorted with
  | [] => [p]
  | q :: rest =>
      if before q p then q :: rank_insert before p rest else p :: q :: rest
  end.

Fixpoint rank (before : Point -> Point -> bool) (ps : list Point) : list Point :=
  match ps with
  | [] => []
  | p :: rest => rank_insert before p (rank before rest)
  end.

Definition search_points (before : Point -> Point -> bool) (limit : nat)
    (flt : QFilter) (stored : list Point) : list Point :=
  firstn limit (rank before (List.filter (satisfies flt) stored)).

(** *** The course table *)

(** A course row, as the table client returns it: a dictionary. *)
Definition Course : Type := gmap string value.

(** One condition [column ILIKE pattern]. *)
Inductive Cond : Type :=
  | ILike (column pattern : string).

(** One parameter of a request.  [ilike(column, pattern)] adds the
    parameter [column=ilike.pattern]; every [or_(conditions)] adds one
    parameter [or=(conditions)] of its own. *)
Inductive Param : Type :=
  | Where (c : Cond)
  | OrGroup (cs : list Cond).

Record Request : Type := {
  req_table : string;
  req_columns : string;
  req_params : list Param;
  req_limit : option nat }.

Definition sb_table (name : string) : Request :=
  {| req_table := name; req_columns := ""; req_params := []; req_limit := None |}.

Definition sb_select (cols : string) (r : Request) : Request :=
  {| req_table := req_table r; req_columns := cols;
     req_params := req_params r; req_limit := req_limit r |}.

Definition sb_ilike (column pattern : string) (r : Request) : Request :=
  {| req_table := req_table r; req_columns := req_columns r;
     req_params := req_params r ++ [Where (ILike column pattern)];
     req_limit := req_limit r |}.

Definition sb_or (cs : list Cond) (r : Request) : Request :=
  {| req_table := req_table r; req_columns := req_columns r;
     req_params := req_params r ++ [OrGroup cs];
     req_limit := req_limit r |}.

Definition sb_limit (n : nat) (r : Request) : Request :=
  {| req_table := req_table r; req_columns := req_columns r;
     req_params := req_params r; req_limit := Some n |}.

(** SQL [LIKE]: [%] stands for any run of characters, [_] for any one. *)
Fixpoint like (pat : string) : string -> bool :=
  match pat with
  | EmptyString =>
      fun txt => match txt with EmptyString => true | String _ _ => false end
  | String c pat' =>
      if Ascii.eqb c "%" then
        fix star (txt : string) : bool :=
          like pat' txt
          || match txt with EmptyString => false | String _ txt' => star txt' end
      else if Ascii.eqb c "_" then
        fun txt =>
          match txt with EmptyString => false | String _ txt' => like pat' txt' end
      else
        fun txt =>
          match txt with
          | EmptyString => false
          | String d txt' => Ascii.eqb c d && like pat' txt'
          end
  end.

(** [ILIKE] on ASCII text: [LIKE] without regard to the case of the ASCII
    letters.  It is the [ILIKE] of the scenarios below. *)
Definition ilike (pat txt : string) : bool := like (lower pat) (lower txt).

(** A condition on a row, for the [ILIKE] [matches] of the service. *)
Definition sql_cond_holds (matches : string -> string -> bool) (row : Course)
    (c : Cond) : bool :=
  match c with
  | ILike column pattern =>
      match row !! column with
      | Some (VStr s) => matches pattern s
      | _ => false
      end
  end.

Definition param_holds (matches : string -> string -> bool) (row : Course)
    (p : Param) : bool :=
  match p with
  | Where c => sql_cond_holds matches row c
  | OrGroup cs => existsb (sql_cond_holds matches row) cs
  end.

(** The table service keeps the rows that satisfy every parameter of the
    request, and cuts the result at the requested limit. *)
Definition select_rows (matches : string -> string -> bool) (r : Request)
    (rows : list Course) : list Course :=
  let kept :=
    List.filter (fun row => forallb (param_holds matches row) (req_params r)) rows in
  match req_limit r with
  | Some n => firstn n kept
  | None => kept
  end.

(** *** Documents, agents and the record of external calls *)

(** A loaded document: [page_content] and the [metadata] dictionary. *)
Record Document : Type := {
  page_content : string;
  metadata : gmap string string }.

Record Agent : Type := {
  role : string;
  goal : string;
  backstory : string }.

Record Task : Type := {
  description : string;
  agent : Agent;
  expected_output : string }.

Record Crew : Type := {
  agents : list Agent;
  tasks : list Task }.

(** Every call that leaves the process, with its arguments. *)
Inductive Event : Type :=
  | EvCollectionExists (name : string)
  | EvCreateCollection (name : string) (size : nat) (distance : string)
  | EvUpsert (name : string) (points : list Point)
  | EvSearch (name : string) (query_vector : Vec) (limit : nat) (flt : QFilter)
  | EvEmbedDocuments (texts : list string)
  | EvEmbedQuery (text : string)
  | EvExecute (r : Request)
  | EvInvoke (template context question : string)
  | EvBuildCrew (c : Crew)
  | EvRunTask (t : Task).

(** The state the pipeline works on: the collections of the vector index,
    the tables of the course database, the crew [setup_agents] stored on
    the pipeline object, the number of clock readings taken so far, and the
    external calls made so far (oldest first). *)
Record World : Type := {
  collections : gmap string (list Point);
  tables : gmap string (list Course);
  crew : option Crew;
  ticks : nat;
  events : list Event }.

(** What the outside world answers.  A call of the index or of the table
    client fails when [fault] says so; the embedding model and the
    generation chain answer or fail on their own; [clock] gives the
    successive readings of [datetime.now()] in microseconds since the
    epoch, [timestamp_int] and [isoformat] what [int(t.timestamp())] and
    [t.isoformat()] give for a reading [t] (the timestamp is a float, so
    its integer part is the whole second of the reading only as far as the
    float is exact).  [str_lower] is [str.lower] and [table_ilike] the
    [ILIKE] of the table service, on arbitrary text.  Every method makes
    each of its calls at most once, so answers that depend on the call and
    its arguments cover every way of injecting a failure into one run. *)
Record Env : Type := {
  embed_documents_model : list string -> outcome (list Vec);
  embed_query_model : string -> outcome Vec;
  chain_model : string -> string -> string -> outcome string;
  ranks_before : Vec -> Point -> Point -> bool;
  fault : Event -> option exn;
  clock : nat -> Z;
  timestamp_int : Z -> Z;
  isoformat : Z -> string;
  str_lower : string -> string;
  table_ilike : string -> string -> bool }.

(** *** The monad of Python statements: state and exceptions *)

Definition M (A : Type) : Type := World -> outcome A * World.

Definition ret {A : Type} (a : A) : M A := fun w => (Ok a, w).

Definition raise {A : Type} (e : exn) : M A := fun w => (Raise e, w).

Definition bind {A B : Type} (m : M A) (k : A -> M B) : M B :=
  fun w =>
    match m w with
    | (Ok a, w') => k a w'
    | (Raise e, w') => (Raise e, w')
    end.

(** [try: m  except Exception as e: h e] *)
Definition try_except {A : Type} (m : M A) (h : exn -> M A) : M A :=
  fun w =>
    match m w with
    | (Ok a, w') => (Ok a, w')
    | (Raise e, w') => h e w'
    end.

Definition lift {A : Type} (o : outcome A) : M A := fun w => (o, w).

Definition emit (ev : Event) : M unit :=
  fun w =>
    (Ok tt, {| collections := collections w; tables := tables w; crew := crew w;
               ticks := ticks w; events := events w ++ [ev] |}).

Definition set_collections (cs : gmap string (list Point)) : M unit :=
  fun w =>
    (Ok tt, {| collections := cs; tables := tables w; crew := crew w;
               ticks := ticks w; events := events w |}).

Definition set_crew (c : Crew) : M unit :=
  fun w =>
    (Ok tt, {| collections := collections w; tables := tables w; crew := Some c;
               ticks := ticks w; events := events w |}).

Definition get_collections : M (gmap string (list Point)) :=
  fun w => (Ok (collections w), w).

Definition get_tables : M (gmap string (list Course)) :=
  fun w => (Ok (tables w), w).

Local Notation "'let*' x ':=' m 'in' k" := (bind m (fun x => k))
  (at level 10, x name, m at level 100, k at level 200).

Variable E : Env.

(** A call of an external service: recorded, then failed if a failure is
    injected at it. *)
Definition call (ev : Event) : M unit :=
  let* _ := emit ev in
  match fault E ev with
  | Some e => raise e
  | None => ret tt
  end.

(** [datetime.now()] *)
Definition now : M Z :=
  fun w =>
    (Ok (clock E (ticks w)),
     {| collections := collections w; tables := tables w; crew := crew w;
        ticks := S (ticks w); events := events w |}).

(** [self.qdrant.collection_exists], [create_collection], [upsert], [search] *)
Definition qdrant_collection_exists (name : string) : M bool :=
  let* _ := call (EvCollectionExists name) in
  let* stored := get_collections in
  ret (match stored !! name with Some _ => true | None => false end).

Definition qdrant_create_collection (name : string) (size : nat)
    (distance : string) : M unit :=
  let* _ := call (EvCreateCollection name size distance) in
  let* stored := get_collections in
  match stored !! name with
  | Some _ => raise (ServiceError ("Collection " +:+ name +:+ " already exists"))
  | None => set_collections (<[name := []]> stored)
  end.

Definition qdrant_upsert (name : string) (points : list Point) : M unit :=
  let* _ := call (EvUpsert name points) in
  let* stored := get_collections in
  match stored !! name with
  | None => raise (ServiceError ("Collection " +:+ name +:+ " not found"))
  | Some old => set_collections (<[name := upsert_points points old]> stored)
  end.

Definition qdrant_search (name : string) (query_vector : Vec) (limit : nat)
    (query_filter : QFilter) : M (list Point) :=
  let* _ := call (EvSearch name query_vector limit query_filter) in
  let* stored := get_collections in
  match stored !! name with
  | None => raise (ServiceError ("Collection " +:+ name +:+ " not found"))
  | Some old =>
      ret (search_points (ranks_before E query_vector) limit query_filter old)
  end.

(** [self.embedder.embed_documents], [embed_query] *)
Definition embed_documents (texts : list string) : M (list Vec) :=
  let* _ := emit (EvEmbedDocuments texts) in
  lift (embed_documents_model E texts).

Definition embed_query (text : string) : M Vec :=
  let* _ := emit (EvEmbedQuery text) in
  lift (embed_query_model E text).

(** [request.execute().data] *)
Definition sb_execute (r : Request) : M (list Course) :=
  let* _ := call (EvExecute r) in
  let* known := get_tables in
  match known !! req_table r with
  | None => raise (ServiceError ("relation " +:+ req_table r +:+ " does not exist"))
  | Some rows => ret (select_rows (table_ilike E) r rows)
  end.

(** [(passthrough | prompt | self.llm | StrOutputParser()).invoke(...)]: the
    chain built from a template, called on a context and a question. *)
Definition chain_invoke (template context question : string) : M string :=
  let* _ := emit (EvInvoke template context question) in
  lift (chain_model E template context question).

(** ** The methods of [RAGPipeline] *)

Definition intent_agent : Agent :=
  {| role := "Intent Classifier";
     goal := "Determine user intent (course_recommendation/course_qa/career_advice/summarization)";
     backstory := "Expert in understanding educational queries" |}.

Definition context_agent : Agent :=
  {| role := "Quality Assurance";
     goal := "Review responses for accuracy";
     backstory := "Specialist in educational content verification" |}.

Definition classify_task : Task :=
  {| description := "Classify: {query}";
     agent := intent_agent;
     expected_output := "Intent classification" |}.

Definition review_task : Task :=
  {| description := "Verify: {response}";
     agent := context_agent;
     expected_output := "Improved response" |}.

Definition review_crew : Crew :=
  {| agents := [intent_agent; context_agent];
     tasks := [classify_task; review_task] |}.

(** The agents, the tasks and the crew are built and stored on the
    pipeline object; a failure while building them is printed and raised
    again. *)
Definition setup_agents : M unit :=
  try_except
    (let* _ := call (EvBuildCrew review_crew) in
     set_crew review_crew)
    (fun e => raise e).

(** The id and the point of the chunk of index [i]: [t_id] and [t_up] are
    the two clock readings taken while the dictionary is built. *)
Definition make_id (user_id : string) (i : nat) (t_id : Z) : string :=
  user_id +:+ "_" +:+ str_of_nat i +:+ "_" +:+ str_of_Z (timestamp_int E t_id).

Definition make_point (user_id : string) (i : nat) (doc : Document)
    (embedding : Vec) (t_id t_up : Z) : Point :=
  {| point_id := make_id user_id i t_id;
     point_vector := embedding;
     point_payload :=
       {| p_content := page_content doc;
          p_user_id := user_id;
          p_source := get_default (metadata doc) "source" "uploaded_file";
          p_uploaded_at := isoformat E t_up |} |}.

(** The points of one batch: [enumerate(zip(documents, embeddings))], with
    two clock readings per point (the id, then [uploaded_at]). *)
Fixpoint build_points (user_id : string) (i : nat)
    (items : list (Document * Vec)) : M (list Point) :=
  match items with
  | [] => ret []
  | (doc, embedding) :: rest =>
      let* t_id := now in
      let* t_up := now in
      let p := make_point user_id i doc embedding t_id t_up in
      let* ps := build_points user_id (S i) rest in
      ret (p :: ps)
  end.

Definition add_documents (documents : list Document) (user_id : string) : M bool :=
  try_except
    (let* present := qdrant_collection_exists "user_documents" in
     let* _ :=
       if negb present
       then qdrant_create_collection "user_documents" 384 "Cosine"
       else ret tt in
     let* embeddings := embed_documents (map page_content documents) in
     let* points := build_points user_id 0 (combine documents embeddings) in
     let* _ := qdrant_upsert "user_documents" points in
     ret true)
    (fun _ => ret false).

(** [if query:] on an optional string.  In [fetch_courses] below, the text
    [f"subject.ilike.%{query_lower}%"] handed to [or_] is kept as the
    group of the one condition it is built from; what the service makes of
    the pattern, and whether it takes the text at all (a query with a
    comma or a parenthesis does not spell one condition), is the
    service's: [table_ilike] and [fault]. *)
Definition truthy (query : option string) : bool :=
  match query with
  | Some (String _ _) => true
  | _ => false
  end.

Definition fetch_courses (query : option string) (limit : nat) : M (list Course) :=
  try_except
    (let select_query := sb_select "*" (sb_table "courses") in
     let select_query :=
       match query with
       | Some q =>
           if truthy query then
             let query_lower := str_lower E q in
             sb_or [ILike "description" ("%" +:+ query_lower +:+ "%")]
               (sb_or [ILike "subject" ("%" +:+ query_lower +:+ "%")]
                  (sb_ilike "title" ("%" +:+ query_lower +:+ "%") select_query))
           else select_query
       | None => select_query
       end in
     let* data := sb_execute (sb_limit limit select_query) in
     let courses := match data with [] => [] | _ :: _ => data end in
     ret courses)
    (fun _ => ret []).

(** The separator between the enrollment context and the question. *)
Definition question_sep : string := nl +:+ nl +:+ "Question: ".

(** [{"must": [{"key": "user_id", "match": {"value": user_id}}]}] *)
Definition user_filter (user_id : string) : QFilter :=
  {| must := [ {| cond_key := "user_id"; cond_value := user_id |} ] |}.

Definition doc_excerpt (hit : Point) : string :=
  "User Document: " +:+ take_chars 200 (p_content (point_payload hit)) +:+ "...".

Definition user_doc_context (user_doc_results : list Point) : string :=
  match user_doc_results with
  | [] => "No relevant user documents found."
  | _ :: _ => join (nl +:+ nl) (map doc_excerpt user_doc_results)
  end.

Definition obind {A B : Type} (o : outcome A) (k : A -> outcome B) : outcome B :=
  match o with
  | Ok a => k a
  | Raise e => Raise e
  end.

(** The summary of one course; the fields are read in the order of the
    f-string. *)
Definition course_summary (course : Course) : outcome string :=
  obind (getitem course "title") (fun title =>
  obind (getitem course "subject") (fun subject =>
  obind (getitem course "level") (fun level =>
  let description := get_default course "description" (VStr "N/A") in
  obind (getitem course "price") (fun price =>
  obind (getitem course "subscribers") (fun subscribers =>
  obind (format_comma subscribers) (fun subscribers_text =>
  Ok ("Course: " +:+ format_plain title +:+ nl +:+
      "Subject: " +:+ format_plain subject +:+ nl +:+
      "Level: " +:+ format_plain level +:+ nl +:+
      "Description: " +:+ format_plain description +:+ nl +:+
      "Price: $" +:+ format_plain price +:+ nl +:+
      "Subscribers: " +:+ subscribers_text))))))).

Fixpoint course_summaries (course_results : list Course) : outcome (list string) :=
  match course_results with
  | [] => Ok []
  | course :: rest =>
      obind (course_summary course) (fun x =>
      obind (course_summaries rest) (fun xs => Ok (x :: xs)))
  end.

Definition course_context (course_results : list Course) : outcome string :=
  match course_results with
  | [] => Ok "No relevant courses found."
  | _ :: _ =>
      obind (course_summaries course_results) (fun xs => Ok (join (nl +:+ nl) xs))
  end.

Definition full_context (context_part user_docs courses : string) : string :=
  context_part +:+ nl +:+ nl +:+ "User Uploaded Documents:" +:+ nl +:+ user_docs
  +:+ nl +:+ nl +:+ "Available Courses:" +:+ nl +:+ courses.

Definition is_child_friendly (question : string) : bool :=
  contains "six-year-old" (lower question) || contains "child" (lower question).

Definition child_template : string :=
  nl +:+ "                You're a friendly teacher talking to a six-year-old. Use this context to answer:"
  +:+ nl +:+ "                {context}"
  +:+ nl +:+ "                "
  +:+ nl +:+ "                Question: {question}"
  +:+ nl +:+ "                Explain it in a super simple way, like you're telling a story with toys, animals, or fun games a six-year-old would love:".

Definition standard_template : string :=
  nl +:+ "                You're an educational assistant. Use this context to answer:"
  +:+ nl +:+ "                {context}"
  +:+ nl +:+ "                "
  +:+ nl +:+ "                Question: {question}"
  +:+ nl +:+ "                Provide a detailed response incorporating user-uploaded materials and course information:".

Definition select_prompt (question : string) : string :=
  if is_child_friendly question then child_template else standard_template.

(** [parts[0] if len(parts) > 1 else ""] and [parts[-1]] *)
Definition context_part_of (query : string) : string :=
  let parts := split question_sep query in
  if Nat.ltb 1 (List.length parts) then List.hd "" parts else "".

Definition question_of (query : string) : string :=
  last_part (split question_sep query) "".

Definition apology (e : exn) : string :=
  "I couldn't process that request. Please try again. (Error: " +:+ str_exn e +:+ ")".

(** The block [user_doc_results = []; if user_id != "unknown": try: ...
    except ...]: the query vector is computed first, as an argument of the
    search. *)
Definition search_user_docs (question user_id : string) : M (list Point) :=
  if negb (String.eqb user_id "unknown") then
    try_except
      (let* query_vector := embed_query question in
       qdrant_search "user_documents" query_vector 3 (user_filter user_id))
      (fun _ => ret [])
  else ret [].

Definition basic_rag_chain (query user_id : string) : M string :=
  try_except
    (let context_part := context_part_of query in
     let question := question_of query in
     let* user_doc_results := search_user_docs question user_id in
     let* course_results := fetch_courses (Some question) 5 in
     let user_docs := user_doc_context user_doc_results in
     let* courses := lift (course_context course_results) in
     let context := full_context context_part user_docs courses in
     let prompt := select_prompt question in
     let* response := chain_invoke prompt context question in
     ret response)
    (fun e => ret (apology e)).

(** ** Results and recorded calls *)

(** The calls a statement adds to the record when run from [w]. *)
Definition new_events {A : Type} (m : M A) (w : World) : list Event :=
  skipn (List.length (events w)) (events (snd (m w))).

(** [sat m Q P]: from every state, [m] ends with a result satisfying [Q],
    having only appended calls satisfying [P] to the record. *)
Definition sat {A : Type} (m : M A) (Q : outcome A -> Prop) (P : Event -> Prop) : Prop :=
  forall w, exists new,
    events (snd (m w)) = events w ++ new /\ Forall P new /\ Q (fst (m w)).

(** ** Auxiliary notions the statements are written with *)

(** The batch [build_points] returns, as a function of the clock position. *)
Fixpoint points_at (user_id : string) (i tick : nat)
    (items : list (Document * Vec)) : list Point :=
  match items with
  | [] => []
  | (doc, embedding) :: rest =>
      make_point user_id i doc embedding (clock E tick) (clock E (S tick))
      :: points_at user_id (S i) (S (S tick)) rest
  end.

Definition batch_points (documents : list Document) (embeddings : list Vec)
    (user_id : string) (tick : nat) : list Point :=
  points_at user_id 0 tick (combine documents embeddings).

(** The steps of an ingestion all succeed. *)
Definition ingestion_succeeds (documents : list Document) (user_id : string)
    (w : World) (embeddings : list Vec) : Prop :=
  fault E (EvCollectionExists "user_documents") = None /\
  (collections w !! "user_documents" = None ->
   fault E (EvCreateCollection "user_documents" 384 "Cosine") = None) /\
  embed_documents_model E (map page_content documents) = Ok embeddings /\
  fault E (EvUpsert "user_documents"
             (batch_points documents embeddings user_id (ticks w))) = None.

(** The state after [n] more clock readings, after one more recorded call,
    and with other collections. *)
Definition tick_by (n : nat) (w : World) : World :=
  {| collections := collections w; tables := tables w; crew := crew w;
     ticks := n + ticks w; events := events w |}.

Definition log (ev : Event) (w : World) : World :=
  {| collections := collections w; tables := tables w; crew := crew w;
     ticks := ticks w; events := events w ++ [ev] |}.

Definition store (cs : gmap string (list Point)) (w : World) : World :=
  {| collections := cs; tables := tables w; crew := crew w;
     ticks := ticks w; events := events w |}.

Definition with_crew (c : option Crew) (w : World) : World :=
  {| collections := collections w; tables := tables w; crew := c;
     ticks := ticks w; events := events w |}.

(** [crew_blind m]: running [m] with another crew stored on the pipeline
    gives the same result and the same state, the crew apart. *)
Definition crew_blind {A : Type} (m : M A) : Prop :=
  forall w c, m (with_crew c w) = (fst (m w), with_crew c (snd (m w))).

(** Which calls of an answer concern the stored documents or the crew. *)
Definition is_crew_call (ev : Event) : bool :=
  match ev with
  | EvBuildCrew _ | EvRunTask _ => true
  | _ => false
  end.

Definition is_document_lookup (ev : Event) : bool :=
  match ev with
  | EvEmbedQuery _ | EvSearch _ _ _ _ => true
  | _ => false
  end.

End Pipeline.

(** A string without underscore. *)
Fixpoint plain (s : string) : bool :=
  match s with
  | EmptyString => true
  | String c s' => negb (Ascii.eqb c "_") && plain s'
  end.

(** ** Scenarios *)

(** Collaborators that all answer: the embedding of a text is its length,
    the chain echoes the question, the index keeps insertion order, and
    the clock advances by one millisecond per reading from a reading of
    the year 2023, where the float timestamp is exact to the microsecond
    and its integer part is the whole second.  The texts of the scenarios
    are ASCII, on which [lower] and [ilike] are [str.lower] and [ILIKE]. *)
Definition demo_env : @Env nat :=
  {| embed_documents_model := fun texts => Ok (map String.length texts);
     embed_query_model := fun text => Ok (String.length text);
     chain_model := fun _ _ question => Ok ("Answer to: " +:+ question);
     ranks_before := fun _ _ _ => false;
     fault := fun _ => None;
     clock := fun n => (1700000000000000 + Z.of_nat n * 1000)%Z;
     timestamp_int := fun t => Z.quot t 1000000;
     isoformat := str_of_Z;
     str_lower := lower;
     table_ilike := ilike |}.

(** The embedding model is down and the chain returns an empty draft. *)
Definition mute_env : @Env nat :=
  {| embed_documents_model := fun _ => Raise (ServiceError "embedding model unavailable");
     embed_query_model := fun _ => Raise (ServiceError "embedding model unavailable");
     chain_model := fun _ _ _ => Ok "";
     ranks_before := fun _ _ _ => false;
     fault := fun _ => None;
     clock := fun n => (1700000000000000 + Z.of_nat n * 1000)%Z;
     timestamp_int := fun t => Z.quot t 1000000;
     isoformat := str_of_Z;
     str_lower := lower;
     table_ilike := ilike |}.

Definition python_course : Course :=
  <["title" := VStr "Python Basics"]>
  (<["subject" := VStr "Programming"]>
  (<["level" := VStr "Beginner"]>
  (<["description" := VStr "Learn to code"]>
  (<["price" := VFloat "19.99" "19.99"]>
  (<["subscribers" := VInt 12345]> ∅))))).

Definition demo_world : @World nat :=
  {| collections := ∅;
     tables := {["courses" := [python_course]]};
     crew := None;
     ticks := 0;
     events := [] |}.

Definition mitosis_doc : Document :=
  {| page_content := "Mitosis is cell division.";
     metadata := {["source" := "bio.txt"]} |}.

Definition mitosis_point : @Point nat :=
  {| point_id := "u1_0_1700000000";
     point_vector := 25;
     point_payload :=
       {| p_content := "Mitosis is cell division.";
          p_user_id := "u1";
          p_source := "bio.txt";
          p_uploaded_at := "1700000000001000" |} |}.

(** The state after user [u1] uploaded the document. *)
Definition after_upload : @World nat :=
  snd (add_documents demo_env [mitosis_doc] "u1" demo_world).

(** The ids a run hands to the index. *)
Definition upserted_ids (calls : list (@Event nat)) : list string :=
  flat_map (fun ev => match ev with
                      | EvUpsert _ points => map point_id points
                      | _ => []
                      end) calls.

(** A text of 150 characters of two bytes each (e with acute accent). *)
Definition accented_text : string :=
  String.concat ""
    (repeat (String (ascii_of_nat 195) (String (ascii_of_nat 169) EmptyString)) 150).

(** The query of the module's own test. *)
Definition test_query : string :=
  "User's enrolled courses:" +:+ nl +:+ "No enrolled courses yet." +:+ question_sep
  +:+ "What is financial analysis?".

(** ** What an answer is made of *)

Section Answer.

Context {Vec : Type}.
Variable E : @Env Vec.

(** The state after the calls [new] have been recorded. *)
Definition logs (new : list (@Event Vec)) (w : @World Vec) : @World Vec :=
  {| collections := collections w; tables := tables w; crew := crew w;
     ticks := ticks w; events := events w ++ new |}.

(** The request [fetch_courses] builds for a query and a limit. *)
Definition course_request (query : option string) (limit : nat) : Request :=
  sb_limit limit
    (if truthy query then
       match query with
       | Some q =>
           sb_or [ILike "description" ("%" +:+ str_lower E q +:+ "%")]
             (sb_or [ILike "subject" ("%" +:+ str_lower E q +:+ "%")]
                (sb_ilike "title" ("%" +:+ str_lower E q +:+ "%")
                   (sb_select "*" (sb_table "courses"))))
       | None => sb_select "*" (sb_table "courses")
       end
     else sb_select "*" (sb_table "courses")).

(** The rows [fetch_courses] returns, read off the tables. *)
Definition courses_found (query : option string) (limit : nat)
    (known : gmap string (list Course)) : list Course :=
  match fault E (EvExecute (course_request query limit)) with
  | Some _ => []
  | None =>
      match known !! "courses" with
      | None => []
      | Some rows => select_rows (table_ilike E) (course_request query limit) rows
      end
  end.

(** The hits [search_user_docs] returns, read off the collections. *)
Definition hits_found (question user_id : string)
    (stored : gmap string (list (@Point Vec))) : list (@Point Vec) :=
  if String.eqb user_id "unknown" then []
  else
    match embed_query_model E question with
    | Raise _ => []
    | Ok query_vector =>
        match fault E (EvSearch "user_documents" query_vector 3 (user_filter user_id)) with
        | Some _ => []
        | None =>
            match stored !! "user_documents" with
            | None => []
            | Some old =>
                search_points (ranks_before E query_vector) 3 (user_filter user_id) old
            end
        end
    end.

(** The calls [search_user_docs] makes. *)
Definition search_calls (question user_id : string) : list (@Event Vec) :=
  if String.eqb user_id "unknown" then []
  else
    EvEmbedQuery question ::
    match embed_query_model E question with
    | Raise _ => []
    | Ok query_vector =>
        [EvSearch "user_documents" query_vector 3 (user_filter user_id)]
    end.

(** The context [basic_rag_chain] assembles, when the course block can be
    formatted. *)
Definition context_for (query user_id : string) (w : @World Vec) : outcome string :=
  obind (course_context (courses_found (Some (question_of query)) 5 (tables w)))
    (fun courses =>
       Ok (full_context (context_part_of query)
             (user_doc_context
                (hits_found (question_of query) user_id (collections w)))
             courses)).

(** The string [basic_rag_chain] returns. *)
Definition answer_of (query user_id : string) (w : @World Vec) : string :=
  match context_for query user_id w with
  | Raise e => apology e
  | Ok context =>
      match chain_model E (select_prompt (question_of query)) context
              (question_of query) with
      | Ok response => response
      | Raise e => apology e
      end
  end.

(** The calls [basic_rag_chain] makes, in order. *)
Definition calls_of (query user_id : string) (w : @World Vec) : list (@Event Vec) :=
  search_calls (question_of query) user_id ++
  EvExecute (course_request (Some (question_of query)) 5) ::
  match context_for query user_id w with
  | Raise _ => []
  | Ok context =>
      [EvInvoke (select_prompt (question_of query)) context (question_of query)]
  end.

(** The fields a course row needs for its summary: [subscribers] must take
    the thousands separator. *)
Definition takes_comma (v : value) : bool :=
  match v with
  | VInt _ | VFloat _ _ | VBool _ => true
  | VStr _ | VNone => false
  end.

Definition well_formed_course (course : Course) : bool :=
  match course !! "title", course !! "subject", course !! "level",
        course !! "price", course !! "subscribers" with
  | Some _, Some _, Some _, Some _, Some v => takes_comma v
  | _, _, _, _, _ => false
  end.

End Answer.

(** ** The pages of [app.py] that call the pipeline *)

(** *** The chat block of [show_chat_assistant] and [show_dashboard] *)

(** A row of [user_courses] as [get_user_courses] returns it: the joined
    course is the value of the key ["courses"] (the page reads no other
    key). *)
Definition Enrollment : Type := gmap string Course.

(** [course['courses'][key]] *)
Definition joined_field (course : Enrollment) (key : string) : outcome value :=
  obind (getitem course "courses") (fun joined => getitem joined key).

Definition enrollment_text (course : Enrollment) : outcome string :=
  obind (joined_field course "title") (fun title =>
  obind (joined_field course "subject") (fun subject =>
  obind (joined_field course "description") (fun description =>
  Ok ("Course: " +:+ format_plain title +:+ nl +:+
      "Subject: " +:+ format_plain subject +:+ nl +:+
      "Description: " +:+ format_plain description)))).

Fixpoint enrollment_texts (user_courses : list Enrollment) : outcome (list string) :=
  match user_courses with
  | [] => Ok []
  | course :: rest =>
      obind (enrollment_text course) (fun x =>
      obind (enrollment_texts rest) (fun xs => Ok (x :: xs)))
  end.

(** [course_context] of the page. *)
Definition enrollment_context (user_courses : list Enrollment) : outcome string :=
  match user_courses with
  | [] => Ok "The user has not enrolled in any courses yet."
  | _ :: _ => obind (enrollment_texts user_courses) (fun xs => Ok (join nl xs))
  end.

Definition full_query (course_context user_input : string) : string :=
  "User's enrolled courses:" +:+ nl +:+ course_context +:+ nl +:+ nl +:+
  "Question: " +:+ user_input.

(** What a Streamlit page displays. *)
Inductive Notice : Type :=
  | NWrite (text : string)
  | NError (text : string)
  | NSuccess (text : string)
  | NWarning (text : string)
  | NText (text : string)
  | NFileLine (name : string) (size : N).

(** What a file upload hands to the page. *)
Record Upload : Type := {
  up_name : string;
  up_data : string }.

(** [uploaded_file.size] *)
Definition up_size (f : Upload) : N := N.of_nat (String.length (up_data f)).

(** The loader classes of [RAGPipeline.__init__]. *)
Inductive Loader : Type := PyPDFLoader | TextLoader.

Definition loaders : gmap string Loader :=
  <[".pdf" := PyPDFLoader]> (<[".txt" := TextLoader]> ∅).

(** [doc.page_content[:1000] + "..." if len(doc.page_content) > 1000 else
    doc.page_content] *)
Definition preview (doc : Document) : string :=
  if Nat.ltb 1000 (len (page_content doc))
  then take_chars 1000 (page_content doc) +:+ "..."
  else page_content doc.

(** How a call of a page ends: it returns, or the [FileNotFoundError] of
    [os.unlink] leaves it. *)
Inductive PageEnd : Type :=
  | Returns
  | FileNotFoundError (path : string).

(** [str(e)] of that error, for a path whose [repr] is the path between
    single quotes. *)
Definition str_file_not_found (path : string) : string :=
  "[Errno 2] No such file or directory: '" +:+ path +:+ "'".

(** [os.unlink(path)] *)
Definition os_unlink (path : string) (files : gmap string string)
    : option (gmap string string) :=
  match files !! path with
  | Some _ => Some (delete path files)
  | None => None
  end.

Section Pages.

Context {Vec : Type}.
Variable E : @Env Vec.

(** The block [if user_input: try: ... except Exception as e: st.error(...)]
    for the enrollment rows [get_user_courses] returned; [speaker] is
    ["Chat Assistant"] or ["Learning Assistant"].  The feedback form that
    follows the answer is not part of it. *)
Definition chat_turn (speaker : string) (user_courses : list Enrollment)
    (user_input user_id : string) : @M Vec (list Notice) :=
  if String.eqb user_input "" then ret []
  else
    match enrollment_context user_courses with
    | Raise e => ret [NError ("Error processing question: " +:+ str_exn e)]
    | Ok course_context =>
        bind (basic_rag_chain E (full_query course_context user_input) user_id)
          (fun response => ret [NWrite ("**" +:+ speaker +:+ "**: " +:+ response)])
    end.

(** *** The upload block of [show_dashboard] *)

(** The operating system and the loader library: [os.path.splitext], the
    path [NamedTemporaryFile] picks for a suffix, and
    [loader_class(path).load()] on the files present. *)
Record Host : Type := {
  splitext : string -> string * string;
  temp_path : string -> gmap string string -> string;
  load : Loader -> string -> gmap string string -> outcome (list Document) }.

Variable H : Host.

(** The state of the page: the pipeline's world, the files of the machine
    and what has been displayed. *)
Record Desk : Type := {
  desk_world : @World Vec;
  desk_files : gmap string string;
  desk_shown : list Notice }.

Definition show (n : Notice) (d : Desk) : Desk :=
  {| desk_world := desk_world d; desk_files := desk_files d;
     desk_shown := desk_shown d ++ [n] |}.

Definition with_files (files : gmap string string) (d : Desk) : Desk :=
  {| desk_world := desk_world d; desk_files := files;
     desk_shown := desk_shown d |}.

Definition with_world (w : @World Vec) (d : Desk) : Desk :=
  {| desk_world := w; desk_files := desk_files d;
     desk_shown := desk_shown d |}.

(** How the body of the [try] ends. *)
Inductive BodyEnd : Type :=
  | Completed
  | ReturnedEarly
  | Failed (e : exn)
  | FailedUnlink (path : string).

(** The [os.unlink(tmp_file_path)] that ends the body. *)
Definition unlink_in_body (path : string) (d : Desk) : BodyEnd * Desk :=
  match os_unlink path (desk_files d) with
  | Some files => (Completed, with_files files d)
  | None => (FailedUnlink path, d)
  end.

(** The notices of a finished ingestion. *)
Definition ingestion_notices (name : string) (documents : list Document)
    (success : bool) : list Notice :=
  if success then
    NSuccess ("Successfully added '" +:+ name +:+ "' to your knowledge base!") ::
    map (fun doc => NText (preview doc)) (firstn 1 documents)
  else [NWarning "Failed to add file to knowledge base"].

(** The body of the [try]: its end, the path bound to [tmp_file_path] if
    the assignment was reached, and the state. *)
Definition upload_body (f : Upload) (user_id : string) (d : Desk)
    : BodyEnd * option string * Desk :=
  if (200 * 1024 * 1024 <? up_size f)%N then
    (ReturnedEarly, None, show (NError "File exceeds 200MB limit") d)
  else
    let d := show (NFileLine (up_name f) (up_size f)) d in
    let tmp_file_path := temp_path H (up_name f) (desk_files d) in
    let d := with_files (<[tmp_file_path := up_data f]> (desk_files d)) d in
    let file_extension := lower (snd (splitext H (up_name f))) in
    match loaders !! file_extension with
    | None =>
        let '(e, d) :=
          unlink_in_body tmp_file_path
            (show (NError ("Unsupported file type: " +:+ file_extension)) d) in
        (e, Some tmp_file_path, d)
    | Some loader_class =>
        match load H loader_class tmp_file_path (desk_files d) with
        | Raise e => (Failed e, Some tmp_file_path, d)
        | Ok documents =>
            match add_documents E documents user_id (desk_world d) with
            | (Raise e, w) => (Failed e, Some tmp_file_path, with_world w d)
            | (Ok success, w) =>
                let d := with_world w d in
                let d :=
                  fold_left (fun d n => show n d)
                    (ingestion_notices (up_name f) documents success) d in
                let '(e, d) := unlink_in_body tmp_file_path d in
                (e, Some tmp_file_path, d)
            end
        end
    end.

(** The whole statement: body, [except Exception], and the [finally] that
    unlinks the path once more when the name is bound. *)
Definition upload_file (f : Upload) (user_id : string) (d : Desk) : PageEnd * Desk :=
  let '(e, bound, d) := upload_body f user_id d in
  let d :=
    match e with
    | Failed e => show (NError ("Error processing file: " +:+ str_exn e)) d
    | FailedUnlink path =>
        show (NError ("Error processing file: " +:+ str_file_not_found path)) d
    | Completed | ReturnedEarly => d
    end in
  match bound with
  | None => (Returns, d)
  | Some tmp_file_path =>
      match os_unlink tmp_file_path (desk_files d) with
      | Some files => (Returns, with_files files d)
      | None => (FileNotFoundError tmp_file_path, d)
      end
  end.

End Pages.

(** ** Scenarios of the pages *)

(** A world without course table. *)
Definition no_courses_world : @World nat :=
  {| collections := ∅; tables := ∅; crew := None; ticks := 0; events := [] |}.

(** A course row that matches the query ["python"] in its title, subject
    and description, and has no other field. *)
Definition bare_course : Course :=
  <["title" := VStr "Python"]>
  (<["subject" := VStr "Python programming"]>
  (<["description" := VStr "Learn Python"]> ∅)).

Definition bare_world : @World nat :=
  {| collections := ∅;
     tables := {["courses" := [bare_course]]};
     crew := None;
     ticks := 0;
     events := [] |}.

(** An enrollment row without joined course. *)
Definition orphan_enrollment : Enrollment := ∅.

(** A host for names with a single dot and no directory: the extension
    starts at the dot, the temporary file is named after the upload, and a
    loader returns the content of the file as one document. *)
Definition demo_host : Host :=
  {| splitext := fun name =>
       match find "." name with
       | Some i => (take i name, drop i name)
       | None => (name, "")
       end;
     temp_path := fun suffix _ => "/tmp/tmpk3x9" +:+ suffix;
     load := fun _ path files =>
       match files !! path with
       | Some data => Ok [ {| page_content := data; metadata := ∅ |} ]
       | None => Raise (ServiceError "File path is not a valid file")
       end |}.

Definition bio_upload : Upload :=
  {| up_name := "bio.TXT"; up_data := "Mitosis is cell division." |}.

Definition empty_desk : @Desk nat :=
  {| desk_world := demo_world; desk_files := ∅; desk_shown := [] |}.

(** * Facts *)

(** ** Strings *)

Module PyStrFacts.

Lemma app_assoc (a b c : string) : (a +:+ b) +:+ c = a +:+ b +:+ c.
Proof. induction a as [|x a IH]; simpl; [reflexivity | now rewrite IH]. Qed.

Lemma app_nil_r (a : string) : a +:+ "" = a.
Proof. induction a as [|x a IH]; simpl; [reflexivity | now rewrite IH]. Qed.

Lemma length_app (a b : string) :
  String.length (a +:+ b) = String.length a + String.length b.
Proof. induction a as [|x a IH]; simpl; [reflexivity | now rewrite IH]. Qed.

Lemma app_inv_head (a b c : string) : a +:+ b = a +:+ c -> b = c.
Proof. induction a as [|x a IH]; simpl; [auto | intros [= H]; auto]. Qed.

Lemma length_drop n s : String.length (drop n s) = String.length s - n.
Proof.
  revert s; induction n as [|n IH]; intros [|c s]; simpl; auto with arith.
Qed.

Lemma length_take n s : String.length (take n s) = Nat.min n (String.length s).
Proof.
  revert s; induction n as [|n IH]; intros [|c s]; simpl; auto.
Qed.

(** Characters: [len] and [s[:n]]. *)
Lemma len_app (a b : string) : len (a +:+ b) = len a + len b.
Proof.
  induction a as [|c a IH]; simpl; [reflexivity|].
  rewrite IH. destruct (is_continuation c); lia.
Qed.

Lemma len_take_chars n s : len (take_chars n s) <= n.
Proof.
  revert n. induction s as [|c s IH]; intros n; simpl; [lia|].
  destruct (is_continuation c) eqn:Hc.
  - simpl. rewrite Hc. apply IH.
  - destruct n as [|n]; simpl; [lia|]. rewrite Hc.
    specialize (IH n). lia.
Qed.

Lemma len_take_chars_min n s : len (take_chars n s) = Nat.min n (len s).
Proof.
  revert n. induction s as [|c s IH]; intros n; simpl; [now rewrite Nat.min_0_r|].
  destruct (is_continuation c) eqn:Hc.
  - simpl. rewrite Hc. apply IH.
  - destruct n as [|n]; simpl; [reflexivity|]. rewrite Hc, IH. reflexivity.
Qed.

Lemma take_chars_all n s : len s <= n -> take_chars n s = s.
Proof.
  revert n. induction s as [|c s IH]; intros n; simpl; [reflexivity|].
  destruct (is_continuation c).
  - intros Hn. now rewrite IH.
  - destruct n as [|n]; intros Hn; [lia|]. rewrite IH; [reflexivity|lia].
Qed.

Lemma take_chars_prefix n s : exists rest, s = take_chars n s +:+ rest.
Proof.
  revert n. induction s as [|c s IH]; intros n; simpl; [now exists ""|].
  destruct (is_continuation c).
  - destruct (IH n) as [rest Hr]. exists rest. simpl. now rewrite <- Hr.
  - destruct n as [|n]; [now exists (String c s)|].
    destruct (IH n) as [rest Hr]. exists rest. simpl. now rewrite <- Hr.
Qed.

Lemma take_drop n s : take n s +:+ drop n s = s.
Proof.
  revert s; induction n as [|n IH]; intros [|c s]; simpl; auto.
  now rewrite IH.
Qed.

Lemma take_app_length (a b : string) : take (String.length a) (a +:+ b) = a.
Proof. induction a as [|x a IH]; simpl; [now destruct b | now rewrite IH]. Qed.

Lemma drop_app_length (a b : string) : drop (String.length a) (a +:+ b) = b.
Proof. induction a as [|x a IH]; simpl; auto. Qed.

Lemma drop_app_le n (a b : string) :
  n <= String.length a -> drop n (a +:+ b) = drop n a +:+ b.
Proof.
  revert a; induction n as [|n IH]; intros [|x a]; simpl; auto; try lia.
  intros H. apply IH. lia.
Qed.

Lemma drop_drop n m s : drop n (drop m s) = drop (m + n) s.
Proof.
  revert s; induction m as [|m IH]; intros s; simpl; auto.
  destruct s as [|c s]; [now destruct n | apply IH].
Qed.

(** Two ways of cutting one string: the shorter head is a prefix of the
    longer one. *)
Lemma app_eq_split (a b c d : string) :
  a +:+ b = c +:+ d -> String.length a <= String.length c ->
  exists e, c = a +:+ e /\ b = e +:+ d.
Proof.
  revert c; induction a as [|x a IH]; intros c H Hl; simpl in *.
  - exists c. auto.
  - destruct c as [|y c]; simpl in *; [lia|].
    injection H as -> H. destruct (IH c H) as (e & -> & ->); [lia|].
    exists e. auto.
Qed.

Lemma startswith_app (p r : string) : startswith p (p +:+ r) = true.
Proof.
  induction p as [|a p IH]; simpl; auto.
  now rewrite Ascii.eqb_refl.
Qed.

Lemma startswith_inv (p s : string) :
  startswith p s = true -> exists r, s = p +:+ r.
Proof.
  revert s; induction p as [|a p IH]; intros s; simpl.
  - exists s. reflexivity.
  - destruct s as [|b s]; [discriminate|].
    intros [E H]%andb_prop. apply Ascii.eqb_eq in E as ->.
    destruct (IH _ H) as [r ->]. now exists r.
Qed.

Lemma startswith_iff (p s : string) :
  startswith p s = true <-> exists r, s = p +:+ r.
Proof.
  split; [apply startswith_inv | intros [r ->]; apply startswith_app].
Qed.

(** The [in] operator decides occurrence. *)
Lemma contains_iff (p s : string) : contains p s = true <-> Occurs p s.
Proof.
  unfold Occurs. induction s as [|c s IH]; simpl.
  - rewrite orb_false_r, startswith_iff. split.
    + intros [r H]. exists "", r. exact H.
    + intros ([|x l] & r & H); simpl in H; [now exists r | discriminate].
  - rewrite orb_true_iff, IH, startswith_iff. split.
    + intros [[r H] | (l & r & ->)].
      * exists "", r. exact H.
      * exists (String c l), r. reflexivity.
    + intros ([|x l] & r & H); simpl in H.
      * left. now exists r.
      * injection H as -> ->. right. now exists l, r.
Qed.

(** [find] returns the first occurrence, if there is one. *)
Lemma find_Some p s i :
  find p s = Some i ->
  s = take i s +:+ p +:+ drop (i + String.length p) s /\
  i = String.length (take i s) /\
  forall l r, s = l +:+ p +:+ r -> i <= String.length l.
Proof.
  revert i; induction s as [|c s IH]; intros i; simpl.
  - destruct (startswith p "") eqn:E; [|discriminate].
    intros [= <-]. apply startswith_inv in E as [r E].
    destruct p; [|discriminate]. simpl. repeat split; auto. lia.
  - destruct (startswith p (String c s)) eqn:E.
    + intros [= <-]. apply startswith_inv in E as [r E]. simpl.
      rewrite E at 1. rewrite E, drop_app_length.
      repeat split; auto. lia.
    + destruct (find p s) as [j|] eqn:F; simpl; [|discriminate].
      intros [= <-]. destruct (IH j eq_refl) as (H1 & H2 & H3). simpl.
      repeat split.
      * now rewrite <- H1.
      * now rewrite <- H2.
      * intros [|x l] r H; simpl in H.
        -- rewrite H, startswith_app in E. discriminate.
        -- injection H as -> H. specialize (H3 _ _ H). simpl. lia.
Qed.

Lemma find_None p s : find p s = None -> ~ Occurs p s.
Proof.
  intros H. rewrite <- contains_iff.
  induction s as [|c s IH]; simpl in *.
  - destruct (startswith p ""); [discriminate | auto].
  - destruct (startswith p (String c s)); [discriminate|]. simpl.
    destruct (find p s); [discriminate|].
    destruct (contains p s); [|auto]. exfalso. now apply IH.
Qed.

Lemma unborderedb_from_sound n sep :
  unborderedb_from n sep = true ->
  forall d, 0 < d < String.length sep -> d < n ->
  startswith (drop d sep) sep = false.
Proof.
  induction n as [|n IH]; simpl; intros H d Hd Hn; [lia|].
  apply andb_prop in H as [H1 H2].
  destruct (Nat.eq_dec d n) as [->|Hne]; [|apply IH; auto; lia].
  destruct Hd as [Hd1 Hd2].
  apply Nat.ltb_lt in Hd1, Hd2. rewrite Hd1, Hd2 in H1. simpl in H1.
  now apply negb_true_iff.
Qed.

Lemma unborderedb_sound sep :
  unborderedb_from (String.length sep) sep = true -> unbordered sep.
Proof.
  intros H d Hd. eapply unborderedb_from_sound; eauto. lia.
Qed.

(** Two occurrences of an unbordered separator do not overlap. *)
Lemma occurrences_apart sep (l1 r1 l2 r2 : string) :
  unbordered sep ->
  l1 +:+ sep +:+ r1 = l2 +:+ sep +:+ r2 ->
  String.length l1 < String.length l2 ->
  String.length l1 + String.length sep <= String.length l2.
Proof.
  intros Hu H Hlt.
  destruct (Nat.le_gt_cases (String.length l1 + String.length sep)
              (String.length l2)) as [|Hov]; [assumption|exfalso].
  destruct (app_eq_split _ _ _ _ H) as (e & -> & He); [lia|].
  rewrite length_app in Hlt, Hov.
  assert (Hd : 0 < String.length e < String.length sep) by lia.
  specialize (Hu _ Hd).
  assert (Hs : drop (String.length e) (sep +:+ r1) = sep +:+ r2).
  { rewrite He, drop_app_length. reflexivity. }
  rewrite drop_app_le in Hs by lia.
  destruct (app_eq_split _ _ _ _ Hs) as (e' & He' & _).
  { rewrite length_drop. lia. }
  assert (Ht : startswith (drop (String.length e) sep) sep = true).
  { apply startswith_iff. now exists e'. }
  congruence.
Qed.

(** The defining equation of [split], as Python documents it. *)
Lemma split_eqn sep s :
  sep <> "" ->
  split sep s =
  match find sep s with
  | None => [s]
  | Some i => take i s :: split sep (drop (i + String.length sep) s)
  end.
Proof.
  destruct sep as [|a sep']; [congruence|intros _].
  rewrite split_equation_2.
  generalize (inspect (find (String a sep') s)).
  intros [[i|] e].
  - transitivity
      (take i s :: split (String a sep') (drop (i + String.length (String a sep')) s));
      [reflexivity | now rewrite e].
  - transitivity [s]; [reflexivity | now rewrite e].
Qed.

Lemma split_nonempty sep s : split sep s <> [].
Proof.
  destruct sep as [|a sep']; [now rewrite split_equation_1|].
  rewrite split_eqn by discriminate.
  destruct (find _ s); discriminate.
Qed.

Lemma last_part_cons x parts d :
  parts <> [] -> last_part (x :: parts) d = last_part parts d.
Proof. unfold last_part. destruct parts; [congruence | reflexivity]. Qed.

Lemma split_no_occurrence sep q : ~ Occurs sep q -> split sep q = [q].
Proof.
  intros H. destruct sep as [|a sep']; [now rewrite split_equation_1|].
  rewrite split_eqn by discriminate.
  destruct (find _ q) as [i|] eqn:eqi; [|reflexivity].
  exfalso. apply H. apply find_Some in eqi as (Hc & _). red. eauto.
Qed.

(** The last part of a split is what follows the last occurrence. *)
Lemma split_last_occurrence sep :
  unbordered sep -> sep <> "" ->
  forall n q pre post d,
    String.length q <= n ->
    q = pre +:+ sep +:+ post ->
    (forall pre' post', q = pre' +:+ sep +:+ post' ->
                        String.length pre' <= String.length pre) ->
    last_part (split sep q) d = post.
Proof.
  intros Hu Hne.
  assert (Hpos : 0 < String.length sep) by (destruct sep; simpl; [congruence|lia]).
  induction n as [|n IH]; intros q pre post d Hn Hq Hlast.
  - exfalso. rewrite Hq, !length_app in Hn. lia.
  - rewrite split_eqn by assumption.
    destruct (find sep q) as [i|] eqn:eqi.
    2:{ exfalso. apply find_None in eqi. apply eqi. now exists pre, post. }
    destruct (find_Some _ _ _ eqi) as (Hcut & Hi & Hfirst).
    set (pre0 := take i q) in *. set (rest := drop (i + String.length sep) q) in *.
    assert (Hle : i <= String.length pre) by (eapply Hfirst; eauto).
    rewrite last_part_cons by apply split_nonempty.
    destruct (Nat.eq_dec i (String.length pre)) as [Heq|Hneq].
    + (* the first occurrence is the last one *)
      assert (Hrest : rest = post).
      { unfold rest. rewrite Heq, Hq, <- length_app, <- app_assoc.
        apply drop_app_length. }
      rewrite Hrest, split_no_occurrence; [reflexivity|].
      intros (l & r & Hc).
      specialize (Hlast (pre +:+ sep +:+ l) r).
      rewrite !length_app in Hlast.
      enough (String.length pre + (String.length sep + String.length l)
              <= String.length pre) by lia.
      apply Hlast. rewrite !app_assoc. rewrite <- Hc. exact Hq.
    + (* an earlier occurrence: the last one lies in the rest *)
      assert (Hq' : pre0 +:+ sep +:+ rest = pre +:+ sep +:+ post) by congruence.
      assert (Hap : String.length pre0 + String.length sep <= String.length pre).
      { apply (occurrences_apart sep pre0 rest pre post); auto. lia. }
      destruct (app_eq_split _ _ _ _ Hq') as (e & He & Hr); [lia|].
      assert (He2 : exists pre1, e = sep +:+ pre1).
      { rewrite He, length_app in Hap.
        destruct (app_eq_split sep rest e (sep +:+ post)) as (e1 & He1 & _);
          [exact Hr | lia | now exists e1]. }
      destruct He2 as [pre1 ->].
      assert (Hrest : rest = pre1 +:+ sep +:+ post).
      { rewrite app_assoc in Hr. now apply app_inv_head in Hr. }
      apply (IH rest pre1 post d).
      * rewrite Hcut, !length_app in Hn. lia.
      * exact Hrest.
      * intros pre' post' H'.
        specialize (Hlast (pre0 +:+ sep +:+ pre') post').
        rewrite He, !length_app in Hlast.
        enough (String.length pre0 + (String.length sep + String.length pre')
                <= String.length pre0 + (String.length sep + String.length pre1))
          by lia.
        apply Hlast. rewrite !app_assoc, <- H'. exact Hcut.
Qed.

End PyStrFacts.

Import PyStrFacts.

(** ** A logic of results and recorded calls *)

Section PipelineFacts.

Context {Vec : Type}.
Variable E : @Env Vec.

Local Notation "'let*' x ':=' m 'in' k" := (bind m (fun x => k))
  (at level 10, x name, m at level 100, k at level 200).

Local Abbreviation Point := (@Point Vec).
Local Abbreviation Event := (@Event Vec).
Local Abbreviation World := (@World Vec).
Local Abbreviation M := (@M Vec).
Local Abbreviation sat := (sat (Vec:=Vec)).
Local Abbreviation new_events := (new_events (Vec:=Vec)).
Local Abbreviation crew_blind := (crew_blind (Vec:=Vec)).
Local Abbreviation ret := (ret (Vec:=Vec)).
Local Abbreviation raise := (raise (Vec:=Vec)).
Local Abbreviation lift := (lift (Vec:=Vec)).
Local Abbreviation emit := (emit (Vec:=Vec)).
Local Abbreviation get_collections := (get_collections (Vec:=Vec)).
Local Abbreviation get_tables := (get_tables (Vec:=Vec)).
Local Abbreviation set_collections := (set_collections (Vec:=Vec)).
Local Abbreviation set_crew := (set_crew (Vec:=Vec)).
Local Abbreviation call := (call E).
Local Abbreviation now := (now E).
Local Abbreviation qdrant_collection_exists := (qdrant_collection_exists E).
Local Abbreviation qdrant_create_collection := (qdrant_create_collection E).
Local Abbreviation qdrant_upsert := (qdrant_upsert E).
Local Abbreviation qdrant_search := (qdrant_search E).
Local Abbreviation embed_documents := (embed_documents E).
Local Abbreviation embed_query := (embed_query E).
Local Abbreviation sb_execute := (sb_execute E).
Local Abbreviation chain_invoke := (chain_invoke E).
Local Abbreviation setup_agents := (setup_agents E).
Local Abbreviation make_id := (make_id E).
Local Abbreviation make_point := (make_point E).
Local Abbreviation build_points := (build_points E).
Local Abbreviation add_documents := (add_documents E).
Local Abbreviation fetch_courses := (fetch_courses E).
Local Abbreviation search_user_docs := (search_user_docs E).
Local Abbreviation basic_rag_chain := (basic_rag_chain E).
Local Abbreviation points_at := (points_at E).
Local Abbreviation batch_points := (batch_points E).
Local Abbreviation ingestion_succeeds := (ingestion_succeeds E).

Lemma sat_new_events {A : Type} (m : M A) Q P w :
  sat m Q P -> Forall P (new_events m w) /\ Q (fst (m w)).
Proof.
  intros H. destruct (H w) as (new & He & HP & HQ). split; [|exact HQ].
  unfold new_events. rewrite He, skipn_app, skipn_all, Nat.sub_diag. exact HP.
Qed.

Lemma sat_events {A : Type} (m : M A) Q P w :
  sat m Q P -> Forall P (new_events m w).
Proof. intros H. now apply (sat_new_events m Q P w) in H. Qed.

Lemma sat_conseq {A : Type} (m : M A) (Q Q' : outcome A -> Prop) P :
  sat m Q P -> (forall o, Q o -> Q' o) -> sat m Q' P.
Proof.
  intros H HQ w. destruct (H w) as (new & He & HP & Hq). exists new. auto.
Qed.

Lemma sat_ret {A : Type} (a : A) (Q : outcome A -> Prop) P :
  Q (Ok a) -> sat (ret a) Q P.
Proof. intros HQ w. exists []. simpl. rewrite List.app_nil_r. auto. Qed.

Lemma sat_raise {A : Type} (e : exn) (Q : outcome A -> Prop) P :
  Q (Raise e) -> sat (raise e) Q P.
Proof. intros HQ w. exists []. simpl. rewrite List.app_nil_r. auto. Qed.

Lemma sat_lift {A : Type} (o : outcome A) (Q : outcome A -> Prop) P :
  Q o -> sat (lift o) Q P.
Proof. intros HQ w. exists []. simpl. rewrite List.app_nil_r. auto. Qed.

Lemma sat_get_collections (Q : outcome (gmap string (list Point)) -> Prop) P :
  (forall cs, Q (Ok cs)) -> sat get_collections Q P.
Proof. intros HQ w. exists []. simpl. rewrite List.app_nil_r. auto. Qed.

Lemma sat_get_tables (Q : outcome (gmap string (list Course)) -> Prop) P :
  (forall ts, Q (Ok ts)) -> sat get_tables Q P.
Proof. intros HQ w. exists []. simpl. rewrite List.app_nil_r. auto. Qed.

Lemma sat_set_collections cs (Q : outcome unit -> Prop) P :
  Q (Ok tt) -> sat (set_collections cs) Q P.
Proof. intros HQ w. exists []. simpl. rewrite List.app_nil_r. auto. Qed.

Lemma sat_set_crew c (Q : outcome unit -> Prop) P :
  Q (Ok tt) -> sat (set_crew c) Q P.
Proof. intros HQ w. exists []. simpl. rewrite List.app_nil_r. auto. Qed.

Lemma sat_now (Q : outcome Z -> Prop) P :
  (forall t, Q (Ok t)) -> sat now Q P.
Proof. intros HQ w. exists []. simpl. rewrite List.app_nil_r. auto. Qed.

Lemma sat_emit ev (Q : outcome unit -> Prop) (P : Event -> Prop) :
  P ev -> Q (Ok tt) -> sat (emit ev) Q P.
Proof. intros HP HQ w. exists [ev]. simpl. auto. Qed.

Lemma sat_bind {A B : Type} (m : M A) (k : A -> M B) (Q : outcome B -> Prop) P :
  sat m (fun o => match o with
                  | Ok a => sat (k a) Q P
                  | Raise e => Q (Raise e)
                  end) P ->
  sat (bind m k) Q P.
Proof.
  intros H w. destruct (H w) as (new & He & HP & HQ). unfold bind.
  destruct (m w) as [[a|e] w1]; simpl in *.
  - destruct (HQ w1) as (new2 & He2 & HP2 & HQ2).
    exists (new ++ new2). rewrite He2, He, List.app_assoc.
    repeat split; auto. apply Forall_app; auto.
  - exists new. auto.
Qed.

Lemma sat_try_except {A : Type} (m : M A) (h : exn -> M A) (Q : outcome A -> Prop) P :
  sat m (fun o => match o with
                  | Ok a => Q (Ok a)
                  | Raise e => sat (h e) Q P
                  end) P ->
  sat (try_except m h) Q P.
Proof.
  intros H w. destruct (H w) as (new & He & HP & HQ). unfold try_except.
  destruct (m w) as [[a|e] w1]; simpl in *.
  - exists new. auto.
  - destruct (HQ w1) as (new2 & He2 & HP2 & HQ2).
    exists (new ++ new2). rewrite He2, He, List.app_assoc.
    repeat split; auto. apply Forall_app; auto.
Qed.

Lemma sat_call ev (Q : outcome unit -> Prop) (P : Event -> Prop) :
  P ev ->
  match fault E ev with Some e => Q (Raise e) | None => Q (Ok tt) end ->
  sat (call ev) Q P.
Proof.
  intros HP HQ. unfold call. apply sat_bind, sat_emit; [exact HP|].
  destruct (fault E ev); [now apply sat_raise | now apply sat_ret].
Qed.

Ltac sat_step :=
  lazymatch goal with
  | |- sat (bind _ _) _ _ => apply sat_bind
  | |- sat (try_except _ _) _ _ => apply sat_try_except
  | |- sat (ret _) _ _ => apply sat_ret
  | |- sat (raise _) _ _ => apply sat_raise
  | |- sat (lift _) _ _ => apply sat_lift
  | |- sat get_collections _ _ => apply sat_get_collections; intros ?cs
  | |- sat get_tables _ _ => apply sat_get_tables; intros ?ts
  | |- sat (set_collections _) _ _ => apply sat_set_collections
  | |- sat (set_crew _) _ _ => apply sat_set_crew
  | |- sat (emit _) _ _ => apply sat_emit
  | |- sat (call _) _ _ => apply sat_call
  | |- sat now _ _ => apply sat_now; intros ?t
  | |- sat (match ?x with _ => _ end) _ _ => destruct x eqn:?
  end.

(** *** The index and the table service *)

Lemma rank_insert_In before (p x : Point) sorted :
  In x (rank_insert before p sorted) -> x = p \/ In x sorted.
Proof.
  induction sorted as [|q rest IH]; simpl.
  - intros [<-|[]]. now left.
  - destruct (before q p); simpl; intros [<-|H]; auto.
    destruct (IH H); auto.
Qed.

Lemma rank_In before (x : Point) ps : In x (rank before ps) -> In x ps.
Proof.
  induction ps as [|p rest IH]; simpl; [auto|].
  intros H. apply rank_insert_In in H as [->|H]; auto.
Qed.

Lemma firstn_In {A : Type} n (x : A) l : In x (firstn n l) -> In x l.
Proof.
  revert l; induction n as [|n IH]; intros [|y l]; simpl; try tauto.
  intros [->|H]; auto.
Qed.

Lemma search_points_In before limit flt stored (p : Point) :
  In p (search_points before limit flt stored) ->
  In p stored /\ satisfies flt p = true.
Proof.
  unfold search_points. intros H.
  apply firstn_In in H. apply rank_In in H.
  now apply List.filter_In in H.
Qed.

Lemma search_points_length before limit flt (stored : list Point) :
  List.length (search_points before limit flt stored) <= limit.
Proof. unfold search_points. apply firstn_le_length. Qed.

Lemma satisfies_user_filter user_id (p : Point) :
  satisfies (user_filter user_id) p = true <->
  p_user_id (point_payload p) = user_id.
Proof.
  unfold satisfies, user_filter, cond_holds, payload_field. simpl.
  rewrite andb_true_r. apply String.eqb_eq.
Qed.

Lemma select_rows_length matches r n rows :
  req_limit r = Some n -> List.length (select_rows matches r rows) <= n.
Proof. unfold select_rows. intros ->. apply firstn_le_length. Qed.

(** *** What each method returns and which calls it makes *)

Lemma qdrant_search_sat name qv limit flt (P : Event -> Prop) :
  P (EvSearch name qv limit flt) ->
  sat (qdrant_search name qv limit flt)
      (fun o => forall hits, o = Ok hits ->
                  List.length hits <= limit /\
                  Forall (fun p => satisfies flt p = true) hits) P.
Proof.
  intros HP. unfold qdrant_search.
  sat_step. sat_step; [exact HP|].
  destruct (fault E _); [discriminate|].
  sat_step. sat_step. sat_step; sat_step; [|discriminate].
  intros hits [= <-]. split; [apply search_points_length|].
  apply List.Forall_forall. intros p Hp. now apply search_points_In in Hp.
Qed.

Lemma search_user_docs_sat question user_id (P : Event -> Prop) :
  (user_id <> "unknown" ->
   P (EvEmbedQuery question) /\
   forall qv, P (EvSearch "user_documents" qv 3 (user_filter user_id))) ->
  sat (search_user_docs question user_id)
      (fun o => exists hits, o = Ok hits /\
                  List.length hits <= 3 /\
                  Forall (fun p => p_user_id (point_payload p) = user_id) hits /\
                  (user_id = "unknown" -> hits = [])) P.
Proof.
  intros HP. unfold search_user_docs.
  destruct (String.eqb user_id "unknown") eqn:Eu; simpl.
  - sat_step. exists []. repeat split; simpl; auto with arith.
  - apply String.eqb_neq in Eu. destruct (HP Eu) as [HP1 HP2].
    assert (Hnil : sat (ret ([] : list Point))
              (fun o => exists hits, o = Ok hits /\
                  List.length hits <= 3 /\
                  Forall (fun p => p_user_id (point_payload p) = user_id) hits /\
                  (user_id = "unknown" -> hits = [])) P).
    { sat_step. exists []. repeat split; simpl; auto with arith. }
    sat_step. sat_step. unfold embed_query. sat_step. sat_step; [exact HP1|].
    sat_step. destruct (embed_query_model E question) as [qv|e]; [|exact Hnil].
    eapply sat_conseq; [apply qdrant_search_sat, HP2|].
    intros [hits|e] H; [|exact Hnil].
    destruct (H hits eq_refl) as [Hl Hf].
    exists hits. repeat split; auto; [|congruence].
    eapply List.Forall_impl; [|exact Hf].
    intros p. apply satisfies_user_filter.
Qed.

Lemma fetch_courses_sat query limit (P : Event -> Prop) :
  (forall r, P (EvExecute r)) ->
  sat (fetch_courses query limit)
      (fun o => exists courses, o = Ok courses /\ List.length courses <= limit) P.
Proof.
  intros HP. unfold fetch_courses, sb_execute.
  assert (Hnil : sat (ret ([] : list Course))
            (fun o => exists courses, o = Ok courses /\ List.length courses <= limit) P).
  { sat_step. exists []. split; simpl; auto with arith. }
  sat_step. sat_step. sat_step. sat_step; [apply HP|].
  destruct (fault E _); [exact Hnil|].
  sat_step. sat_step. sat_step; [|sat_step; exact Hnil].
  sat_step. sat_step. eexists. split; [reflexivity|].
  match goal with |- context [select_rows ?m ?r ?rows] =>
    pose proof (select_rows_length m r limit rows eq_refl) as Hl;
    destruct (select_rows m r rows) end; simpl in *; lia.
Qed.

(** [fetch_courses] never raises, and returns at most [limit] rows. *)
Lemma fetch_courses_never_raises query limit w :
  exists courses,
    fst (fetch_courses query limit w) = Ok courses /\ List.length courses <= limit.
Proof.
  pose proof (fetch_courses_sat query limit (fun _ => True) (fun _ => I)) as H.
  apply (sat_new_events _ _ _ w) in H. exact (proj2 H).
Qed.


Lemma basic_rag_chain_sat query user_id (P : Event -> Prop) :
  (user_id <> "unknown" ->
   P (EvEmbedQuery (question_of query)) /\
   forall qv, P (EvSearch "user_documents" qv 3 (user_filter user_id))) ->
  (forall r, P (EvExecute r)) ->
  (forall (hits : list Point) courses text,
     List.length hits <= 3 ->
     Forall (fun p => p_user_id (point_payload p) = user_id) hits ->
     (user_id = "unknown" -> hits = []) ->
     List.length courses <= 5 ->
     course_context courses = Ok text ->
     P (EvInvoke (select_prompt (question_of query))
          (full_context (context_part_of query) (user_doc_context hits) text)
          (question_of query))) ->
  sat (basic_rag_chain query user_id)
      (fun o => exists s, o = Ok s /\
         ((exists context,
             chain_model E (select_prompt (question_of query)) context
               (question_of query) = Ok s) \/
          (exists e, s = apology e))) P.
Proof.
  intros HPs HPx HPi. unfold basic_rag_chain.
  sat_step. sat_step.
  eapply sat_conseq; [apply search_user_docs_sat, HPs|].
  intros o (hits & -> & Hl & Hown & Hanon).
  sat_step. eapply sat_conseq; [apply fetch_courses_sat, HPx|].
  intros o (courses & -> & Hc).
  sat_step. sat_step.
  destruct (course_context courses) as [text|e] eqn:Ht.
  2:{ sat_step. eexists. split; [reflexivity|]. right. now exists e. }
  sat_step. unfold chain_invoke. sat_step. sat_step; [now apply (HPi hits courses text)|].
  sat_step.
  destruct (chain_model E _ _ _) as [response|e] eqn:Hr.
  - sat_step. eexists. split; [reflexivity|]. left. eauto.
  - sat_step. eexists. split; [reflexivity|]. right. now exists e.
Qed.

(** *** Ingestion *)

Lemma tick_by_0 (w : World) : tick_by 0 w = w.
Proof. now destruct w. Qed.

Lemma build_points_run user_id items : forall i w,
  build_points user_id i items w =
  (Ok (points_at user_id i (ticks w) items), tick_by (2 * List.length items) w).
Proof.
  induction items as [|[doc emb] rest IH]; intros i w.
  - simpl. now rewrite tick_by_0.
  - simpl. unfold bind at 1. simpl. unfold bind at 1. simpl.
    unfold bind at 1. rewrite IH. simpl. unfold ret, tick_by. simpl.
    do 2 f_equal. f_equal. lia.
Qed.

Lemma points_at_owner user_id items : forall i tick,
  Forall (fun p => p_user_id (point_payload p) = user_id)
         (points_at user_id i tick items).
Proof.
  induction items as [|[doc emb] rest IH]; intros i tick; simpl; constructor; auto.
Qed.

Lemma build_points_sat user_id i items (Q : outcome (list Point) -> Prop) P :
  (forall tick, Q (Ok (points_at user_id i tick items))) ->
  sat (build_points user_id i items) Q P.
Proof.
  intros HQ w. exists []. rewrite build_points_run. simpl.
  rewrite List.app_nil_r. auto.
Qed.

Lemma add_documents_sat documents user_id (P : Event -> Prop) :
  P (EvCollectionExists "user_documents") ->
  P (EvCreateCollection "user_documents" 384 "Cosine") ->
  P (EvEmbedDocuments (map page_content documents)) ->
  (forall pts, Forall (fun p => p_user_id (point_payload p) = user_id) pts ->
               P (EvUpsert "user_documents" pts)) ->
  sat (add_documents documents user_id) (fun o => exists b, o = Ok b) P.
Proof.
  intros H1 H2 H3 H4. unfold add_documents.
  assert (Hf : sat (ret false) (fun o => exists b, o = Ok b) P)
    by (sat_step; eauto).
  sat_step. sat_step. unfold qdrant_collection_exists.
  sat_step. sat_step; [exact H1|].
  destruct (fault E _); [exact Hf|].
  sat_step. sat_step. sat_step. sat_step.
  assert (Hrest : sat
    (let* embeddings := embed_documents (map page_content documents) in
     let* points := build_points user_id 0 (combine documents embeddings) in
     let* _ := qdrant_upsert "user_documents" points in
     ret true)
    (fun o => match o with
              | Ok a => exists b, Ok a = Ok b
              | Raise e => sat (ret false) (fun o => exists b, o = Ok b) P
              end) P).
  { sat_step. unfold embed_documents. sat_step. sat_step; [exact H3|].
    sat_step. destruct (embed_documents_model E _) as [embs|e]; [|exact Hf].
    sat_step. apply build_points_sat. intros tick.
    sat_step. unfold qdrant_upsert. sat_step. sat_step.
    { apply H4, points_at_owner. }
    destruct (fault E _); [exact Hf|].
    sat_step. sat_step. sat_step; sat_step; [|exact Hf].
    sat_step. eauto. }
  destruct (negb _).
  - unfold qdrant_create_collection. sat_step. sat_step; [exact H2|].
    destruct (fault E _); [exact Hf|].
    sat_step. sat_step. sat_step; sat_step; [exact Hf|exact Hrest].
  - sat_step. exact Hrest.
Qed.

(** *** Statements that do not look at the stored crew *)

Lemma crew_blind_bind {A B : Type} (m : M A) (k : A -> M B) :
  crew_blind m -> (forall a, crew_blind (k a)) -> crew_blind (bind m k).
Proof.
  intros Hm Hk w c. unfold bind. rewrite Hm.
  destruct (m w) as [[a|e] w1]; simpl; [apply Hk | reflexivity].
Qed.

Lemma crew_blind_try_except {A : Type} (m : M A) (h : exn -> M A) :
  crew_blind m -> (forall e, crew_blind (h e)) -> crew_blind (try_except m h).
Proof.
  intros Hm Hh w c. unfold try_except. rewrite Hm.
  destruct (m w) as [[a|e] w1]; simpl; [reflexivity | apply Hh].
Qed.

Lemma crew_blind_ret {A : Type} (a : A) : crew_blind (ret a).
Proof. intros w c. reflexivity. Qed.

Lemma crew_blind_raise {A : Type} (e : exn) : crew_blind (raise e : M A).
Proof. intros w c. reflexivity. Qed.

Lemma crew_blind_lift {A : Type} (o : outcome A) : crew_blind (lift o).
Proof. intros w c. reflexivity. Qed.

Lemma crew_blind_emit ev : crew_blind (emit ev).
Proof. intros w c. reflexivity. Qed.

Lemma crew_blind_get_collections : crew_blind get_collections.
Proof. intros w c. reflexivity. Qed.

Lemma crew_blind_get_tables : crew_blind get_tables.
Proof. intros w c. reflexivity. Qed.

Lemma crew_blind_call ev : crew_blind (call ev).
Proof.
  unfold call. apply crew_blind_bind; [apply crew_blind_emit|].
  intros _. destruct (fault E ev); [apply crew_blind_raise | apply crew_blind_ret].
Qed.

Create HintDb blind discriminated.

Hint Resolve crew_blind_ret crew_blind_raise crew_blind_lift crew_blind_emit
  crew_blind_get_collections crew_blind_get_tables crew_blind_call : blind.

Ltac blind :=
  repeat first
    [ apply crew_blind_bind; [|intros ?]
    | apply crew_blind_try_except; [|intros ?]
    | solve [auto with blind]
    | match goal with
      | |- crew_blind (match ?x with _ => _ end) => destruct x
      end ].

Lemma crew_blind_basic_rag_chain query user_id :
  crew_blind (basic_rag_chain query user_id).
Proof.
  unfold basic_rag_chain, search_user_docs, fetch_courses, chain_invoke,
    embed_query, qdrant_search, sb_execute.
  blind.
Qed.

(** ** The properties of [basic_rag_chain] *)


(** C10.  Called for the user ["unknown"], [basic_rag_chain] neither embeds
    the question nor searches the index, and every context it hands to the
    generation chain has the placeholder as its block of user documents. *)
Theorem anonymous_call_reads_no_documents query w :
  Forall (fun ev =>
            is_document_lookup ev = false /\
            match ev with
            | EvInvoke _ context _ =>
                exists courses,
                  context = full_context (context_part_of query)
                              "No relevant user documents found." courses
            | _ => True
            end)
         (new_events (basic_rag_chain query "unknown") w).
Proof.
  eapply sat_events, basic_rag_chain_sat.
  - intros H. congruence.
  - intros r. simpl. auto.
  - intros hits courses text _ _ Hanon _ _. simpl. split; [reflexivity|].
    rewrite (Hanon eq_refl). simpl. eauto.
Qed.

Lemma doc_excerpt_length (hit : Point) : len (doc_excerpt hit) <= 218.
Proof.
  unfold doc_excerpt. rewrite !len_app.
  change (len "User Document: ") with 15.
  change (len "...") with 3.
  pose proof (len_take_chars 200 (p_content (point_payload hit))) as H.
  revert H. generalize (len (take_chars 200 (p_content (point_payload hit)))).
  intros n Hn. lia.
Qed.

Lemma user_doc_context_length (hits : list Point) :
  List.length hits <= 3 -> len (user_doc_context hits) <= 658.
Proof.
  intros H. destruct hits as [|a [|b [|c [|d rest]]]]; simpl in H; try lia.
  - unfold user_doc_context.
    change (len "No relevant user documents found.") with 33. lia.
  - cbn [user_doc_context List.map join].
    pose proof (doc_excerpt_length a). lia.
  - cbn [user_doc_context List.map join]. rewrite !len_app.
    pose proof (doc_excerpt_length a). pose proof (doc_excerpt_length b).
    change (len nl) with 1. lia.
  - cbn [user_doc_context List.map join]. rewrite !len_app.
    pose proof (doc_excerpt_length a). pose proof (doc_excerpt_length b).
    pose proof (doc_excerpt_length c).
    change (len nl) with 1. lia.
Qed.

(** C4 (amended).  Every context handed to the generation chain is, in this
    order, the enrollment context of the query, the labelled block of user
    documents and the labelled block of courses.  The block of user
    documents is built from at most 3 hits, each cut to its first 200
    characters (the whole text when it has no more) and always followed by
    the marker ["..."], so that block has at most 658 characters; the
    block of courses is built from at most 5 rows.  Characters are counted
    as Python counts them, not bytes.  Nothing bounds the enrollment
    context or the course block. *)
Theorem assembled_context_layout query user_id w :
  Forall (fun ev =>
            match ev with
            | EvInvoke _ context _ =>
                exists (hits : list Point) courses summaries,
                  List.length hits <= 3 /\
                  List.length courses <= 5 /\
                  course_context courses = Ok summaries /\
                  context =
                    context_part_of query +:+ nl +:+ nl +:+
                    "User Uploaded Documents:" +:+ nl +:+ user_doc_context hits +:+
                    nl +:+ nl +:+ "Available Courses:" +:+ nl +:+ summaries /\
                  len (user_doc_context hits) <= 658
            | _ => True
            end)
         (new_events (basic_rag_chain query user_id) w) /\
  (forall hits : list Point,
     hits <> [] ->
     user_doc_context hits = join (nl +:+ nl) (map doc_excerpt hits)) /\
  (forall hit : Point,
     doc_excerpt hit =
       "User Document: " +:+ take_chars 200 (p_content (point_payload hit)) +:+ "..." /\
     len (take_chars 200 (p_content (point_payload hit))) =
       Nat.min 200 (len (p_content (point_payload hit))) /\
     (exists rest,
        p_content (point_payload hit) =
        take_chars 200 (p_content (point_payload hit)) +:+ rest) /\
     (len (p_content (point_payload hit)) <= 200 ->
      take_chars 200 (p_content (point_payload hit)) = p_content (point_payload hit))).
Proof.
  split; [|split].
  - eapply sat_events, basic_rag_chain_sat; simpl; auto.
    intros hits courses text Hh _ _ Hc Ht.
    exists hits, courses, text. repeat split; auto.
    now apply user_doc_context_length.
  - intros [|a rest] H; [congruence | reflexivity].
  - intros hit. split; [reflexivity|]. split; [apply len_take_chars_min|].
    split; [apply take_chars_prefix | apply take_chars_all].
Qed.

(** C2.  A point that [add_documents] upserts for user [A] carries [A] in
    its payload; every search [basic_rag_chain] issues for user [B] carries
    the equality filter on [B]; so, whatever the index stores, the point of
    [A] is not among the results of a search issued for another user [B]. *)
Theorem user_isolation (A B : string) documents query wA wB
    name pts p name' qv limit flt :
  A <> B ->
  In (EvUpsert name pts) (new_events (add_documents documents A) wA) ->
  In p pts ->
  In (EvSearch name' qv limit flt) (new_events (basic_rag_chain query B) wB) ->
  p_user_id (point_payload p) = A /\
  flt = user_filter B /\
  forall stored, ~ In p (search_points (ranks_before E qv) limit flt stored).
Proof.
  intros Hne Hup Hp Hsearch.
  assert (HA : p_user_id (point_payload p) = A).
  { pose proof (sat_events (add_documents documents A) _
      (fun ev => match ev with
                 | EvUpsert _ ps =>
                     Forall (fun q => p_user_id (point_payload q) = A) ps
                 | _ => True
                 end) wA
      (add_documents_sat documents A _ I I I (fun _ H => H))) as Hall.
    rewrite List.Forall_forall in Hall. specialize (Hall _ Hup). simpl in Hall.
    rewrite List.Forall_forall in Hall. now apply Hall. }
  assert (HB : flt = user_filter B).
  { assert (Hall : Forall (fun ev => match ev with
                                      | EvSearch _ _ _ f => f = user_filter B
                                      | _ => True
                                      end)
                     (new_events (basic_rag_chain query B) wB)).
    { eapply sat_events, basic_rag_chain_sat; simpl; auto. }
    rewrite List.Forall_forall in Hall. now apply (Hall _ Hsearch). }
  repeat split; auto.
  intros stored Hin. apply search_points_In in Hin as [_ Hs].
  rewrite HB in Hs. apply satisfies_user_filter in Hs. congruence.
Qed.

(** *** The state after an ingestion *)

Lemma qdrant_collection_exists_run name w :
  qdrant_collection_exists name w =
  match fault E (EvCollectionExists name) with
  | Some e => (Raise e, log (EvCollectionExists name) w)
  | None =>
      (Ok (match collections w !! name with Some _ => true | None => false end),
       log (EvCollectionExists name) w)
  end.
Proof.
  unfold qdrant_collection_exists, call, bind, emit. simpl.
  destruct (fault E _); reflexivity.
Qed.

Lemma qdrant_create_collection_run name size distance w :
  qdrant_create_collection name size distance w =
  let w1 := log (EvCreateCollection name size distance) w in
  match fault E (EvCreateCollection name size distance) with
  | Some e => (Raise e, w1)
  | None =>
      match collections w !! name with
      | Some _ =>
          (Raise (ServiceError ("Collection " +:+ name +:+ " already exists")), w1)
      | None => (Ok tt, store (<[name := []]> (collections w)) w1)
      end
  end.
Proof.
  unfold qdrant_create_collection, call, bind, emit. simpl.
  destruct (fault E _); [reflexivity|]. simpl.
  destruct (collections w !! name); reflexivity.
Qed.

Lemma qdrant_upsert_run name points w :
  qdrant_upsert name points w =
  let w1 := log (EvUpsert name points) w in
  match fault E (EvUpsert name points) with
  | Some e => (Raise e, w1)
  | None =>
      match collections w !! name with
      | None => (Raise (ServiceError ("Collection " +:+ name +:+ " not found")), w1)
      | Some old =>
          (Ok tt, store (<[name := upsert_points points old]> (collections w)) w1)
      end
  end.
Proof.
  unfold qdrant_upsert, call, bind, emit. simpl.
  destruct (fault E _); [reflexivity|]. simpl.
  destruct (collections w !! name); reflexivity.
Qed.

Lemma embed_documents_run texts w :
  embed_documents texts w =
  (embed_documents_model E texts, log (EvEmbedDocuments texts) w).
Proof.
  unfold embed_documents, bind, emit, lift. simpl.
  destruct (embed_documents_model E texts); reflexivity.
Qed.

Lemma ingest_batch_run (documents : list Document) (user_id : string)
    (w1 : World) (old : list Point) :
  collections w1 !! "user_documents" = Some old ->
  let rest :=
    let* embeddings := embed_documents (map page_content documents) in
    let* points := build_points user_id 0 (combine documents embeddings) in
    let* _ := qdrant_upsert "user_documents" points in
    ret true in
  (exists e w',
     rest w1 = (Raise e, w') /\
     forall embeddings,
       embed_documents_model E (map page_content documents) = Ok embeddings ->
       fault E (EvUpsert "user_documents"
                  (batch_points documents embeddings user_id (ticks w1))) <> None) \/
  (exists embeddings w',
     rest w1 = (Ok true, w') /\
     embed_documents_model E (map page_content documents) = Ok embeddings /\
     fault E (EvUpsert "user_documents"
                (batch_points documents embeddings user_id (ticks w1))) = None /\
     collections w' =
       <["user_documents" :=
           upsert_points (batch_points documents embeddings user_id (ticks w1)) old]>
         (collections w1)).
Proof.
  intros Hold. simpl. unfold bind. rewrite embed_documents_run.
  destruct (embed_documents_model E _) as [embs|e].
  2:{ left. do 2 eexists. split; [reflexivity|]. discriminate. }
  rewrite build_points_run, qdrant_upsert_run. simpl.
  fold (batch_points documents embs user_id (ticks w1)).
  destruct (fault E (EvUpsert _ _)) as [e|] eqn:F.
  { left. do 2 eexists. split; [reflexivity|]. intros ? [= <-]. congruence. }
  rewrite Hold. right. exists embs. eexists. repeat split; auto.
Qed.

Lemma add_documents_run (documents : list Document) (user_id : string) (w : World) :
  (exists w',
     add_documents documents user_id w = (Ok false, w') /\
     forall embeddings, ~ ingestion_succeeds documents user_id w embeddings) \/
  (exists embeddings w',
     add_documents documents user_id w = (Ok true, w') /\
     ingestion_succeeds documents user_id w embeddings /\
     collections w' =
       <["user_documents" :=
           upsert_points (batch_points documents embeddings user_id (ticks w))
             (default [] (collections w !! "user_documents"))]> (collections w)).
Proof.
  unfold add_documents, ingestion_succeeds.
  set (rest := bind (embed_documents _) _).
  unfold try_except, bind.
  rewrite qdrant_collection_exists_run.
  destruct (fault E (EvCollectionExists _)) as [e|] eqn:F1.
  { left. eexists. split; [reflexivity|]. intros embs (H & _). congruence. }
  destruct (collections w !! "user_documents") as [old|] eqn:Hc; simpl.
  - destruct (ingest_batch_run documents user_id
                (log (EvCollectionExists "user_documents") w) old Hc)
      as [(e & w' & Hrun & Hno) | (embs & w' & Hrun & He & Hf & Hst)];
      fold rest in Hrun; rewrite Hrun; simpl in *.
    + left. eexists. split; [reflexivity|].
      intros embs (_ & _ & He & Hf). now apply (Hno embs).
    + right. exists embs, w'. repeat split; auto. congruence.
  - rewrite qdrant_create_collection_run. simpl.
    destruct (fault E (EvCreateCollection _ _ _)) as [e|] eqn:F2.
    { left. eexists. split; [reflexivity|]. intros embs (_ & H & _).
      specialize (H eq_refl). congruence. }
    rewrite Hc.
    match goal with |- context [rest ?w1] =>
      destruct (ingest_batch_run documents user_id w1 [])
        as [(e & w' & Hrun & Hno) | (embs & w' & Hrun & He & Hf & Hst)] end;
      [ apply lookup_insert_eq | | ];
      fold rest in Hrun; rewrite Hrun; simpl in *.
    + left. eexists. split; [reflexivity|].
      intros embs (_ & _ & He & Hf). now apply (Hno embs).
    + right. exists embs, w'. repeat split; auto.
      rewrite Hst. apply insert_insert_eq.
Qed.

(** The calls of a successful ingestion. *)
Lemma add_documents_events (documents : list Document) (user_id : string)
    (w : World) embeddings :
  ingestion_succeeds documents user_id w embeddings ->
  new_events (add_documents documents user_id) w =
    EvCollectionExists "user_documents" ::
    match collections w !! "user_documents" with
    | None => [EvCreateCollection "user_documents" 384 "Cosine"]
    | Some _ => []
    end ++
    [EvEmbedDocuments (map page_content documents);
     EvUpsert "user_documents" (batch_points documents embeddings user_id (ticks w))].
Proof.
  intros (F1 & F2 & He & Fu).
  assert (Hnew : forall (m : M bool) l,
            events (snd (m w)) = events w ++ l -> new_events m w = l).
  { intros m l Hl. unfold new_events. rewrite Hl.
    now rewrite skipn_app, skipn_all, Nat.sub_diag. }
  apply Hnew. unfold add_documents.
  set (rest := bind (embed_documents _) _).
  assert (Hrest : forall (w1 : World) old,
            collections w1 !! "user_documents" = Some old ->
            ticks w1 = ticks w ->
            fst (rest w1) = Ok true /\
            events (snd (rest w1)) =
              events w1 ++
              [EvEmbedDocuments (map page_content documents);
               EvUpsert "user_documents"
                 (batch_points documents embeddings user_id (ticks w))]).
  { intros w1 old Hold Ht. unfold rest, bind.
    rewrite embed_documents_run, He, build_points_run, qdrant_upsert_run. simpl.
    rewrite Ht. fold (batch_points documents embeddings user_id (ticks w)).
    rewrite Fu, Hold. simpl. split; [reflexivity|].
    now rewrite <- List.app_assoc. }
  unfold try_except, bind.
  rewrite qdrant_collection_exists_run, F1.
  destruct (collections w !! "user_documents") as [old|] eqn:Hc; simpl.
  - destruct (Hrest (log (EvCollectionExists "user_documents") w) old Hc eq_refl)
      as [Hr He'].
    destruct (rest _) as [[b|e] w1]; simpl in *; [|discriminate].
    rewrite He'. now rewrite <- List.app_assoc.
  - rewrite qdrant_create_collection_run. simpl. rewrite (F2 eq_refl), Hc.
    match goal with |- context [rest ?w1] =>
      destruct (Hrest w1 [] (lookup_insert_eq _ _ _) eq_refl) as [Hr He'] end.
    destruct (rest _) as [[b|e] w1]; simpl in *; [|discriminate].
    rewrite He'. now rewrite <- !List.app_assoc.
Qed.

(** *** Point ids *)

Lemma plain_digits d : plain (NilEmpty.string_of_uint d) = true.
Proof. induction d; simpl; auto. Qed.

Lemma plain_str_of_nat n : plain (str_of_nat n) = true.
Proof.
  unfold str_of_nat, NilZero.string_of_uint.
  destruct (Nat.to_uint n); try reflexivity; apply (plain_digits (_ _)).
Qed.

Lemma plain_str_of_Z z : plain (str_of_Z z) = true.
Proof.
  unfold str_of_Z, NilZero.string_of_int, NilZero.string_of_uint.
  destruct (Z.to_int z) as [d|d]; destruct d; try reflexivity;
    try apply (plain_digits (_ _)); simpl; apply plain_digits.
Qed.

Lemma unorm_not_nil d : Decimal.unorm d <> Decimal.Nil.
Proof. unfold Decimal.unorm. destruct (Decimal.nzhead d); discriminate. Qed.

Lemma str_of_nat_inj n m : str_of_nat n = str_of_nat m -> n = m.
Proof.
  unfold str_of_nat. intros H.
  assert (Hn : forall k, Nat.to_uint k <> Decimal.Nil).
  { intros k. rewrite <- (DecimalNat.Unsigned.of_to k) at 1.
    rewrite DecimalNat.Unsigned.to_of. apply unorm_not_nil. }
  apply DecimalNat.Unsigned.to_uint_inj.
  pose proof (NilZero.usu _ (Hn n)) as H1.
  pose proof (NilZero.usu _ (Hn m)) as H2.
  rewrite H in H1. congruence.
Qed.

Lemma to_int_normal z :
  Z.to_int z <> Decimal.Pos Decimal.Nil /\ Z.to_int z <> Decimal.Neg Decimal.Nil.
Proof.
  rewrite <- (DecimalZ.of_to z) at 1 2. rewrite DecimalZ.to_of.
  destruct (Z.to_int z) as [d|d]; simpl.
  - split; [|discriminate]. intros [= H]. now apply unorm_not_nil in H.
  - destruct (Decimal.nzhead d) eqn:Hd; split; try discriminate.
Qed.

Lemma str_of_Z_inj a b : str_of_Z a = str_of_Z b -> a = b.
Proof.
  unfold str_of_Z. intros H. apply DecimalZ.to_int_inj.
  destruct (to_int_normal a) as [Ha1 Ha2]. destruct (to_int_normal b) as [Hb1 Hb2].
  pose proof (NilZero.isi _ Ha1 Ha2) as H1.
  pose proof (NilZero.isi _ Hb1 Hb2) as H2.
  rewrite H in H1. congruence.
Qed.

(** Two strings cut at their first underscore. *)
Lemma cut_at_underscore (a a' r r' : string) :
  plain a = true -> plain a' = true ->
  a +:+ "_" +:+ r = a' +:+ "_" +:+ r' -> a = a' /\ r = r'.
Proof.
  revert a'. induction a as [|c a IH]; intros [|c' a']; simpl; intros Ha Ha' H.
  - injection H as ->. auto.
  - injection H as <- _. simpl in Ha'. discriminate.
  - injection H as -> _. simpl in Ha. discriminate.
  - injection H as -> H.
    apply andb_prop in Ha as [_ Ha]. apply andb_prop in Ha' as [_ Ha'].
    destruct (IH a' Ha Ha' H) as [-> ->]. auto.
Qed.

Lemma make_id_inj user_id i i' t t' :
  make_id user_id i t = make_id user_id i' t' <->
  i = i' /\ timestamp_int E t = timestamp_int E t'.
Proof.
  unfold make_id. split; [|now intros [-> ->]].
  intros H. apply app_inv_head in H. simpl in H. injection H as H.
  apply cut_at_underscore in H as [Hi Ht];
    [|apply plain_str_of_nat|apply plain_str_of_nat].
  split; [now apply str_of_nat_inj | now apply str_of_Z_inj].
Qed.

Lemma points_at_lookup user_id items : forall i tick k p,
  points_at user_id i tick items !! k = Some p ->
  point_id p = make_id user_id (i + k) (clock E (tick + 2 * k)).
Proof.
  induction items as [|[doc emb] rest IH]; intros i tick k p; simpl.
  - discriminate.
  - destruct k as [|k]; simpl.
    + intros [= <-]. simpl. now rewrite !Nat.add_0_r.
    + intros H. apply IH in H. rewrite H. f_equal; [|f_equal]; lia.
Qed.

Lemma points_at_ids user_id items : forall i tick x,
  In x (map point_id (points_at user_id i tick items)) ->
  exists j t, i <= j /\ x = make_id user_id j t.
Proof.
  induction items as [|[doc emb] rest IH]; intros i tick x; simpl; [tauto|].
  intros [<-|H].
  - exists i, (clock E tick). auto.
  - apply IH in H as (j & t & Hj & ->). exists j, t. split; [lia|reflexivity].
Qed.

Lemma points_at_NoDup user_id items : forall i tick,
  List.NoDup (map point_id (points_at user_id i tick items)).
Proof.
  induction items as [|[doc emb] rest IH]; intros i tick; simpl.
  - constructor.
  - constructor; [|apply IH].
    intros H. apply points_at_ids in H as (j & t & Hj & H).
    apply make_id_inj in H as [-> _]. lia.
Qed.

Lemma upsert_point_fresh (p : Point) stored :
  (forall q, In q stored -> point_id q <> point_id p) ->
  upsert_point p stored = stored ++ [p].
Proof.
  induction stored as [|q rest IH]; simpl; intros H; [reflexivity|].
  destruct (String.eqb_spec (point_id q) (point_id p)) as [Heq|_].
  - exfalso. apply (H q); auto.
  - rewrite IH; auto.
Qed.

Lemma upsert_points_fresh (pts : list Point) : forall stored,
  List.NoDup (map point_id pts) ->
  (forall q, In q stored -> ~ In (point_id q) (map point_id pts)) ->
  upsert_points pts stored = stored ++ pts.
Proof.
  unfold upsert_points.
  induction pts as [|p ps IH]; intros stored Hnd Hfresh; simpl.
  - now rewrite List.app_nil_r.
  - inversion Hnd as [|? ? Hp Hps]; subst.
    rewrite upsert_point_fresh.
    + rewrite IH; [now rewrite <- List.app_assoc | exact Hps |].
      intros q Hq Hin. apply List.in_app_or in Hq as [Hq|[<-|[]]].
      * apply (Hfresh q Hq). simpl. auto.
      * contradiction.
    + intros q Hq Heq. apply (Hfresh q Hq). simpl. auto.
Qed.

(** ** The properties of [add_documents] *)


(** C9 (amended).  When [add_documents] succeeds, the batch it built is
    what its last call hands to the index; the id of the point of index
    [k] is the user id, [k] and the integer part of the timestamp of the
    clock reading taken for it, joined by underscores; no two points of
    the batch share an id; two ids of one user are equal exactly when the
    index and that integer part are equal; and the batch is upserted into
    what the collection held: when none of its ids is stored yet, the
    points are added after the stored ones. *)
Theorem batch_ids (documents : list Document) (user_id : string)
    (w w' : World) (embeddings : list Vec) :
  add_documents documents user_id w = (Ok true, w') ->
  embed_documents_model E (map page_content documents) = Ok embeddings ->
  let pts := batch_points documents embeddings user_id (ticks w) in
  let old := default [] (collections w !! "user_documents") in
  last (new_events (add_documents documents user_id) w) =
    Some (EvUpsert "user_documents" pts) /\
  (forall k p, pts !! k = Some p ->
     point_id p =
       user_id +:+ "_" +:+ str_of_nat k +:+ "_" +:+
       str_of_Z (timestamp_int E (clock E (ticks w + 2 * k)))) /\
  List.NoDup (map point_id pts) /\
  (forall i i' t t',
     make_id user_id i t = make_id user_id i' t' <->
     i = i' /\ timestamp_int E t = timestamp_int E t') /\
  collections w' !! "user_documents" = Some (upsert_points pts old) /\
  ((forall q, In q old -> ~ In (point_id q) (map point_id pts)) ->
   collections w' !! "user_documents" = Some (old ++ pts)).
Proof.
  intros Hrun Hemb pts old.
  assert (Hst : collections w' !! "user_documents" = Some (upsert_points pts old) /\
                ingestion_succeeds documents user_id w embeddings).
  { destruct (add_documents_run documents user_id w)
      as [(w1 & H1 & _) | (embs & w1 & H1 & Hok & Hc)];
      rewrite Hrun in H1; [discriminate|].
    injection H1 as <-. rewrite Hc, lookup_insert_eq.
    assert (embs = embeddings) as ->
      by (destruct Hok as (_ & _ & He & _); congruence).
    split; [reflexivity | exact Hok]. }
  destruct Hst as [Hst Hok].
  split; [|split; [|split; [|split; [|split]]]].
  - rewrite (add_documents_events _ _ _ _ Hok). fold pts.
    destruct (collections w !! "user_documents"); reflexivity.
  - intros k p Hk. apply points_at_lookup in Hk. exact Hk.
  - apply points_at_NoDup.
  - intros i i' t t'. apply make_id_inj.
  - exact Hst.
  - intros Hfresh. rewrite Hst. f_equal.
    apply upsert_points_fresh; [apply points_at_NoDup | exact Hfresh].
Qed.

End PipelineFacts.


(** ** The question and the prompt *)

Lemma question_sep_unbordered : unbordered question_sep.
Proof. apply unborderedb_sound. vm_compute. reflexivity. Qed.

Lemma question_sep_nonempty : question_sep <> "".
Proof. discriminate. Qed.

(** A way to check that an occurrence is the last one. *)
Lemma last_occurrence_by_search (sep query pre post : string) :
  query = pre +:+ sep +:+ post ->
  contains sep (drop (S (String.length pre)) query) = false ->
  forall pre' post',
    query = pre' +:+ sep +:+ post' -> String.length pre' <= String.length pre.
Proof.
  intros Hq Hno pre' post' Hq'.
  destruct (Nat.le_gt_cases (String.length pre') (String.length pre)) as [|Hgt];
    [assumption|exfalso].
  assert (Hocc : Occurs sep (drop (S (String.length pre)) query)).
  { rewrite Hq', drop_app_le by lia. red. eauto. }
  apply contains_iff in Hocc. congruence.
Qed.

(** The question is what follows the last occurrence of the separator in
    the query, and the whole query when the separator does not occur. *)
Lemma question_of_last_separator (query : string) :
  (forall pre post,
     query = pre +:+ question_sep +:+ post ->
     (forall pre' post',
        query = pre' +:+ question_sep +:+ post' ->
        String.length pre' <= String.length pre) ->
     question_of query = post) /\
  (~ Occurs question_sep query -> question_of query = query).
Proof.
  unfold question_of. split.
  - intros pre post Hq Hlast.
    apply (split_last_occurrence question_sep question_sep_unbordered
             question_sep_nonempty (String.length query) query pre post "");
      auto.
  - intros H. now rewrite split_no_occurrence.
Qed.



(** ** The scenarios, run *)

Lemma user_isolation_witness :
  p_user_id (point_payload mitosis_point) = "u1" /\
  user_filter "u2" = user_filter "u2" /\
  forall stored,
    ~ In mitosis_point
        (search_points (ranks_before demo_env 16) 3 (user_filter "u2") stored).
Proof.
  apply (user_isolation demo_env "u1" "u2" [mitosis_doc] "What is mitosis?"
           demo_world after_upload "user_documents" [mitosis_point] mitosis_point
           "user_documents" 16 3 (user_filter "u2")).
  - discriminate.
  - vm_compute. do 3 right. left. reflexivity.
  - left. reflexivity.
  - vm_compute. right. left. reflexivity.
Defined.

Lemma batch_ids_witness :
  collections after_upload !! "user_documents" = Some ([] ++ [mitosis_point]).
Proof.
  destruct (batch_ids demo_env [mitosis_doc] "u1" demo_world after_upload [25])
    as (_ & _ & _ & _ & _ & H).
  - vm_compute. reflexivity.
  - reflexivity.
  - apply H. intros q [].
Defined.


(** The context assembled for user [u1] after the upload: the excerpt of a
    25-character document carries the marker, and no bound holds for the
    whole context. *)
Lemma short_excerpt_is_marked :
  In (EvInvoke standard_template
        (nl +:+ nl +:+ "User Uploaded Documents:" +:+ nl +:+
         "User Document: Mitosis is cell division...." +:+
         nl +:+ nl +:+ "Available Courses:" +:+ nl +:+ "No relevant courses found.")
        "What is mitosis?")
     (new_events (basic_rag_chain demo_env "What is mitosis?" "u1") after_upload) /\
  ~ (exists bound, forall context_part user_docs courses,
       len (full_context context_part user_docs courses) <= bound).
Proof.
  split.
  - vm_compute. do 3 right. left. reflexivity.
  - intros [bound H].
    specialize (H (String.concat "" (repeat "x" (S bound))) "" "").
    unfold full_context in H. rewrite len_app in H.
    assert (Hlen : forall n, len (String.concat "" (repeat "x" n)) = n).
    { induction n as [|n IH]; [reflexivity|].
      simpl repeat. destruct n as [|n]; [reflexivity|].
      change (String.concat "" ("x" :: repeat "x" (S n)))
        with ("x" +:+ "" +:+ String.concat "" (repeat "x" (S n))).
      rewrite !len_app, IH. reflexivity. }
    rewrite Hlen in H. lia.
Qed.

(** After [setup_agents] stored the crew, an answer makes four calls
    (embedding, index, course table, generation) and none of the crew. *)
Lemma stored_crew_is_not_run :
  let w := snd (setup_agents demo_env after_upload) in
  crew w <> None /\
  fst (basic_rag_chain demo_env "What is mitosis?" "u1" w)
    = Ok "Answer to: What is mitosis?" /\
  List.length (new_events (basic_rag_chain demo_env "What is mitosis?" "u1") w) = 4 /\
  existsb is_crew_call
    (new_events (basic_rag_chain demo_env "What is mitosis?" "u1") w) = false.
Proof. vm_compute. repeat split. discriminate. Qed.

(** Uploading the same document again within the same second builds the
    same id: the first and the second call hand the index a point with the
    id ["u1_0_1700000000"], so no index that keeps one point per id can
    hold an additional point for the second upload.  In the index of this
    model, which accepts the id and upserts, the second call succeeds and
    the collection still holds one point. *)
Lemma reupload_within_a_second_overwrites :
  let again := add_documents demo_env [mitosis_doc] "u1" after_upload in
  upserted_ids (new_events (add_documents demo_env [mitosis_doc] "u1") demo_world)
    = ["u1_0_1700000000"] /\
  upserted_ids (new_events (add_documents demo_env [mitosis_doc] "u1") after_upload)
    = ["u1_0_1700000000"] /\
  fst again = Ok true /\
  map point_id (default [] (collections after_upload !! "user_documents"))
    = ["u1_0_1700000000"] /\
  map point_id (default [] (collections (snd again) !! "user_documents"))
    = ["u1_0_1700000000"].
Proof. vm_compute. repeat split. Qed.

(** A document of 150 accented characters (300 bytes) is excerpted whole:
    the cut is at 200 characters, not at 200 bytes. *)
Lemma accented_excerpt_is_whole :
  len accented_text = 150 /\
  String.length accented_text = 300 /\
  take_chars 200 accented_text = accented_text.
Proof. vm_compute. repeat split. Qed.

(** C7.  The three filters of [fetch_courses] are three parameters of the
    request, which the table service conjoins: a course whose title
    contains the query, but whose subject and description do not, is not
    returned, although it is returned when no query is given. *)
Theorem fetch_courses_conjoins_filters :
  ilike ("%" +:+ lower "Python" +:+ "%") "Python Basics" = true /\
  fst (fetch_courses demo_env (Some "Python") 5 demo_world) = Ok [] /\
  fst (fetch_courses demo_env None 5 demo_world) = Ok [python_course] /\
  new_events (fetch_courses demo_env (Some "Python") 5) demo_world =
    [EvExecute
       {| req_table := "courses";
          req_columns := "*";
          req_params :=
            [Where (ILike "title" "%python%");
             OrGroup [ILike "subject" "%python%"];
             OrGroup [ILike "description" "%python%"]];
          req_limit := Some 5 |}].
Proof. vm_compute. repeat split. Qed.

(** ** What an answer is made of: facts *)

Section AnswerFacts.

Context {Vec : Type}.
Variable E : @Env Vec.

Local Abbreviation World := (@World Vec).
Local Abbreviation Event := (@Event Vec).
Local Abbreviation Point := (@Point Vec).

Lemma logs_nil (w : World) : logs [] w = w.
Proof. destruct w. unfold logs. simpl. now rewrite List.app_nil_r. Qed.

Lemma logs_logs (a b : list Event) (w : World) : logs b (logs a w) = logs (a ++ b) w.
Proof. unfold logs. simpl. now rewrite List.app_assoc. Qed.

Lemma search_user_docs_run question user_id (w : World) :
  search_user_docs E question user_id w =
  (Ok (hits_found E question user_id (collections w)),
   logs (search_calls E question user_id) w).
Proof.
  unfold search_user_docs, hits_found, search_calls.
  destruct (String.eqb user_id "unknown"); simpl.
  - unfold ret. now rewrite logs_nil.
  - unfold try_except, bind, embed_query, qdrant_search, call, bind, emit, lift,
      get_collections, ret, raise. simpl.
    destruct (embed_query_model E question) as [qv|e]; simpl; [|reflexivity].
    destruct (fault E (EvSearch _ _ _ _)); simpl.
    + unfold logs. simpl. now rewrite <- List.app_assoc.
    + destruct (collections w !! "user_documents"); simpl;
        unfold logs; simpl; now rewrite <- List.app_assoc.
Qed.

Lemma fetch_courses_run query limit (w : World) :
  fetch_courses E query limit w =
  (Ok (courses_found E query limit (tables w)),
   logs [EvExecute (course_request E query limit)] w).
Proof.
  assert (Hreq : sb_limit limit
            match query with
            | Some q =>
                if truthy query then
                  sb_or [ILike "description" ("%" +:+ str_lower E q +:+ "%")]
                    (sb_or [ILike "subject" ("%" +:+ str_lower E q +:+ "%")]
                       (sb_ilike "title" ("%" +:+ str_lower E q +:+ "%")
                          (sb_select "*" (sb_table "courses"))))
                else sb_select "*" (sb_table "courses")
            | None => sb_select "*" (sb_table "courses")
            end = course_request E query limit).
  { unfold course_request. destruct query as [[|c q]|]; reflexivity. }
  assert (Ht : req_table (course_request E query limit) = "courses").
  { unfold course_request. destruct (truthy query); [destruct query|]; reflexivity. }
  unfold fetch_courses, courses_found. rewrite Hreq. clear Hreq.
  revert Ht. generalize (course_request E query limit). intros r Ht.
  unfold try_except, bind, sb_execute, call, bind, emit, get_tables, ret, raise.
  cbn [fst snd tables events collections crew ticks].
  destruct (fault E (EvExecute r)); [reflexivity|].
  cbn [fst snd tables events collections crew ticks]. rewrite Ht.
  destruct (tables w !! "courses") as [rows|]; [|reflexivity].
  destruct (select_rows _ r rows); reflexivity.
Qed.

Lemma basic_rag_chain_run query user_id (w : World) :
  basic_rag_chain E query user_id w =
  (Ok (answer_of E query user_id w), logs (calls_of E query user_id w) w).
Proof.
  unfold basic_rag_chain, try_except. unfold bind at 1.
  rewrite search_user_docs_run. unfold bind at 1.
  rewrite fetch_courses_run. simpl.
  unfold answer_of, calls_of, context_for. simpl.
  destruct (course_context _) as [courses|e]; simpl.
  - unfold bind, lift, chain_invoke, bind, emit, lift, ret. simpl.
    destruct (chain_model E _ _ _); simpl;
      unfold logs; simpl; rewrite <- !List.app_assoc; reflexivity.
  - unfold bind, lift, ret. simpl.
    unfold logs; simpl; rewrite <- !List.app_assoc; reflexivity.
Qed.

Lemma new_events_logs {A : Type} (m : @M Vec A) (w : World) o new :
  m w = (o, logs new w) -> new_events m w = new.
Proof.
  intros H. unfold new_events. rewrite H. simpl.
  now rewrite skipn_app, skipn_all, Nat.sub_diag.
Qed.

Lemma basic_rag_chain_calls query user_id (w : World) :
  new_events (basic_rag_chain E query user_id) w = calls_of E query user_id w.
Proof. eapply new_events_logs, basic_rag_chain_run. Qed.

Lemma basic_rag_chain_answer query user_id (w : World) :
  fst (basic_rag_chain E query user_id w) = Ok (answer_of E query user_id w).
Proof. now rewrite basic_rag_chain_run. Qed.

(** X1.  Answering reads the index and the course table and writes
    nothing: after [basic_rag_chain] the collections, the tables, the
    stored crew and the clock position are what they were, and the
    recorded calls have only grown. *)
Theorem answering_changes_nothing query user_id (w : World) :
  let w' := snd (basic_rag_chain E query user_id w) in
  collections w' = collections w /\
  tables w' = tables w /\
  crew w' = crew w /\
  ticks w' = ticks w /\
  events w' = events w ++ new_events (basic_rag_chain E query user_id) w.
Proof.
  rewrite basic_rag_chain_calls, basic_rag_chain_run. simpl. auto.
Qed.

(** X2.  The calls of one answer, exactly and in order: for a user other
    than ["unknown"] the embedding of the question, followed, exactly when
    the embedding succeeded, by one search of the user's documents with
    the embedded vector, limit 3 and the user's filter; then one course
    lookup for the question with limit 5; then, exactly when the block of
    courses could be built, one generation call with the assembled
    context, which comes last.  The hits and the rows are the ones the
    search and the lookup return. *)
Theorem answering_call_order query user_id (w : World) :
  let question := question_of query in
  let hits := hits_found E question user_id (collections w) in
  let rows := courses_found E (Some question) 5 (tables w) in
  new_events (basic_rag_chain E query user_id) w =
    (if String.eqb user_id "unknown" then []
     else
       EvEmbedQuery question ::
       match embed_query_model E question with
       | Ok query_vector =>
           [EvSearch "user_documents" query_vector 3 (user_filter user_id)]
       | Raise _ => []
       end) ++
    EvExecute (course_request E (Some question) 5) ::
    match course_context rows with
    | Ok courses =>
        [EvInvoke (select_prompt question)
           (full_context (context_part_of query) (user_doc_context hits) courses)
           question]
    | Raise _ => []
    end /\
  fst (search_user_docs E question user_id w) = Ok hits /\
  fst (fetch_courses E (Some question) 5 w) = Ok rows.
Proof.
  intros question hits rows.
  split; [|split].
  - rewrite basic_rag_chain_calls. unfold calls_of, search_calls, context_for.
    fold question. fold hits. fold rows.
    destruct (course_context rows); reflexivity.
  - now rewrite search_user_docs_run.
  - now rewrite fetch_courses_run.
Qed.

(** C6.  The question [basic_rag_chain] works with is what follows the
    last occurrence of the separator in the query, and the whole query
    when the separator does not occur in it; and this question is what the
    method retrieves and prompts with: for a user other than ["unknown"]
    its first call embeds the question, it always asks [fetch_courses] for
    the question, and in every call it makes the embedded text, the
    searched vector, the course request, the template and the question
    handed to the generation chain are those of the question. *)
Theorem question_follows_last_separator query user_id (w : World) :
  let question := question_of query in
  ((forall pre post,
      query = pre +:+ question_sep +:+ post ->
      (forall pre' post',
         query = pre' +:+ question_sep +:+ post' ->
         String.length pre' <= String.length pre) ->
      question = post) /\
   (~ Occurs question_sep query -> question = query)) /\
  (user_id <> "unknown" ->
   List.hd_error (new_events (basic_rag_chain E query user_id) w) =
     Some (EvEmbedQuery question)) /\
  In (EvExecute (course_request E (Some question) 5))
     (new_events (basic_rag_chain E query user_id) w) /\
  new_events (fetch_courses E (Some question) 5) w =
    [EvExecute (course_request E (Some question) 5)] /\
  Forall (fun ev =>
            match ev with
            | EvEmbedQuery text => text = question
            | EvSearch _ query_vector _ _ =>
                embed_query_model E question = Ok query_vector
            | EvExecute r => r = course_request E (Some question) 5
            | EvInvoke template _ asked =>
                template = select_prompt question /\ asked = question
            | _ => True
            end)
         (new_events (basic_rag_chain E query user_id) w).
Proof.
  intros question.
  split; [apply question_of_last_separator|].
  rewrite basic_rag_chain_calls. unfold calls_of, search_calls. fold question.
  split; [|split; [|split]].
  - intros Hu. destruct (String.eqb_spec user_id "unknown"); [contradiction|].
    reflexivity.
  - apply List.in_or_app. right. now left.
  - erewrite new_events_logs; [|apply fetch_courses_run]. reflexivity.
  - apply Forall_app. split.
    + destruct (String.eqb user_id "unknown"); [constructor|].
      constructor; [reflexivity|].
      destruct (embed_query_model E question) eqn:He; repeat constructor.
    + constructor; [reflexivity|].
      destruct (context_for E query user_id w); repeat constructor.
Qed.

(** C5 (amended).  [setup_agents] only builds the crew, with the
    classification task before the review task, and stores it (or stores
    nothing when building it fails).  [basic_rag_chain] never runs a task
    of the crew, whether or not one is stored: no call of the crew is among
    the calls it makes, and its result is the same whatever crew is stored.
    The draft of the generation chain is returned as it is: when the
    generation call was made and answered, its answer is the result. *)
Theorem basic_rag_chain_runs_no_review query user_id (w : World) :
  map description (tasks review_crew) = ["Classify: {query}"; "Verify: {response}"] /\
  crew (snd (setup_agents E w)) =
    match fault E (EvBuildCrew review_crew) with
    | None => Some review_crew
    | Some _ => crew w
    end /\
  Forall (fun ev => is_crew_call ev = false)
         (new_events (basic_rag_chain E query user_id) w) /\
  (forall c, fst (basic_rag_chain E query user_id (with_crew c w)) =
             fst (basic_rag_chain E query user_id w)) /\
  (forall template context question draft,
     In (EvInvoke template context question)
        (new_events (basic_rag_chain E query user_id) w) ->
     chain_model E template context question = Ok draft ->
     fst (basic_rag_chain E query user_id w) = Ok draft).
Proof.
  split; [reflexivity|]. split; [|split; [|split]].
  - unfold setup_agents, try_except, bind, call, bind, emit. simpl.
    destruct (fault E (EvBuildCrew review_crew)); reflexivity.
  - eapply sat_events, basic_rag_chain_sat; simpl; auto.
  - intros c. now rewrite crew_blind_basic_rag_chain.
  - intros template context question draft.
    rewrite basic_rag_chain_calls, basic_rag_chain_answer.
    unfold calls_of, answer_of, search_calls. rewrite List.in_app_iff.
    intros [Hin|[Hin|Hin]].
    + exfalso. destruct (String.eqb user_id "unknown"); [destruct Hin|].
      destruct Hin as [Hin|Hin]; [discriminate|].
      destruct (embed_query_model E _); [|destruct Hin].
      destruct Hin as [Hin|[]]; discriminate.
    + discriminate.
    + destruct (context_for E query user_id w) as [ctx|e]; [|destruct Hin].
      destruct Hin as [[= <- <- <-]|[]]. now intros ->.
Qed.

(** When no document of the user can be retrieved. *)
Lemma hits_found_none question user_id stored :
  (exists e, embed_query_model E question = Raise e) \/
  (exists query_vector e,
     embed_query_model E question = Ok query_vector /\
     fault E (EvSearch "user_documents" query_vector 3 (user_filter user_id)) = Some e) \/
  stored !! "user_documents" = None \/
  (exists old, stored !! "user_documents" = Some old /\
     Forall (fun p : Point => p_user_id (point_payload p) <> user_id) old) ->
  hits_found E question user_id stored = [].
Proof.
  unfold hits_found. destruct (String.eqb user_id "unknown"); [reflexivity|].
  intros [[e ->] | [(qv & e & -> & ->) | [Hc | (old & Hc & Hold)]]]; auto.
  - destruct (embed_query_model E question); auto.
    destruct (fault E _); auto. now rewrite Hc.
  - destruct (embed_query_model E question) as [qv|]; auto.
    destruct (fault E _); auto. rewrite Hc.
    destruct (search_points _ 3 (user_filter user_id) old) as [|p rest] eqn:Hs; auto.
    exfalso. assert (Hin : In p (search_points (ranks_before E qv) 3 (user_filter user_id) old))
      by (rewrite Hs; now left).
    apply search_points_In in Hin as [Hin Hsat].
    apply satisfies_user_filter in Hsat.
    rewrite List.Forall_forall in Hold. now apply (Hold p).
Qed.

(** X3.  Retrieval degrades silently: when the embedding of the question
    fails, or the search of the index fails, or the collection does not
    exist, or it holds no point of the user, [basic_rag_chain] answers the
    user exactly as it answers the user ["unknown"]. *)
Theorem failed_retrieval_answers_as_anonymous query user_id (w : World) :
  (exists e, embed_query_model E (question_of query) = Raise e) \/
  (exists query_vector e,
     embed_query_model E (question_of query) = Ok query_vector /\
     fault E (EvSearch "user_documents" query_vector 3 (user_filter user_id)) = Some e) \/
  collections w !! "user_documents" = None \/
  (exists old, collections w !! "user_documents" = Some old /\
     Forall (fun p : Point => p_user_id (point_payload p) <> user_id) old) ->
  fst (basic_rag_chain E query user_id w) =
  fst (basic_rag_chain E query "unknown" w).
Proof.
  intros H. rewrite !basic_rag_chain_answer. f_equal.
  unfold answer_of, context_for.
  rewrite (hits_found_none _ _ _ H). reflexivity.
Qed.

(** X4.  The course lookup degrades silently too: when the request to the
    course table fails or the table does not exist, the generation call is
    still made, with the placeholder as the block of courses. *)
Theorem failed_course_lookup_uses_placeholder query user_id (w : World) :
  (exists e, fault E (EvExecute (course_request E (Some (question_of query)) 5)) = Some e) \/
  tables w !! "courses" = None ->
  exists user_docs,
    last (new_events (basic_rag_chain E query user_id) w) =
    Some (EvInvoke (select_prompt (question_of query))
            (full_context (context_part_of query) user_docs "No relevant courses found.")
            (question_of query)).
Proof.
  intros H. rewrite basic_rag_chain_calls. unfold calls_of, context_for.
  assert (Hc : courses_found E (Some (question_of query)) 5 (tables w) = []).
  { unfold courses_found. destruct H as [[e ->]|H]; [reflexivity|].
    destruct (fault E _); [reflexivity|]. now rewrite H. }
  rewrite Hc. simpl. eexists.
  match goal with |- last (?a ++ [?x; ?y]) = _ =>
    change (a ++ [x; y]) with (a ++ [x] ++ [y]) end.
  rewrite List.app_assoc. apply last_snoc.
Qed.

(** *** Course rows *)

Lemma course_summary_ok_iff (course : Course) :
  (exists text, course_summary course = Ok text) <-> well_formed_course course = true.
Proof.
  unfold course_summary, well_formed_course, getitem, obind, format_comma, takes_comma.
  unfold Course in *.
  split.
  - intros [text H]. repeat case_match; simplify_eq; reflexivity.
  - intros H. repeat case_match; simplify_eq; eauto.
Qed.

(** X5.  What a course row needs: its summary can be built exactly when
    the row has a title, a subject, a level, a price and a subscriber count
    that takes the thousands separator; a missing title raises the
    [KeyError] of that key; and a row without description is summarised as
    the same row with the description ["N/A"]. *)
Theorem course_summary_fields (course : Course) :
  ((exists text, course_summary course = Ok text) <->
   well_formed_course course = true) /\
  (course !! "title" = None -> course_summary course = Raise (KeyError "title")) /\
  (course !! "description" = None ->
   course_summary course = course_summary (<["description" := VStr "N/A"]> course)).
Proof.
  split; [apply course_summary_ok_iff|]. unfold Course in *. split.
  - intros H. unfold course_summary, getitem. now rewrite H.
  - intros H. unfold course_summary, getitem, get_default.
    rewrite H, lookup_insert_eq.
    rewrite !lookup_insert_ne by discriminate. reflexivity.
Qed.

Lemma course_summaries_ok rows texts :
  course_summaries rows = Ok texts ->
  Forall (fun course => well_formed_course course = true) rows.
Proof.
  revert texts. induction rows as [|course rest IH]; intros texts; simpl.
  - constructor.
  - destruct (course_summary course) as [text|e] eqn:Hc; simpl; [|discriminate].
    destruct (course_summaries rest) as [rest_texts|e] eqn:Hr; simpl; [|discriminate].
    intros _. constructor; [|eapply IH; eauto].
    apply course_summary_ok_iff. eauto.
Qed.

(** X6.  One malformed row spoils the answer: when a row returned by the
    course lookup lacks one of the needed fields, [basic_rag_chain] returns
    an apology and makes no generation call. *)
Theorem malformed_course_row_gives_apology query user_id (w : World) (course : Course) :
  In course (courses_found E (Some (question_of query)) 5 (tables w)) ->
  well_formed_course course = false ->
  (exists e, fst (basic_rag_chain E query user_id w) = Ok (apology e)) /\
  Forall (fun ev => match ev with EvInvoke _ _ _ => False | _ => True end)
         (new_events (basic_rag_chain E query user_id) w).
Proof.
  intros Hin Hbad.
  assert (Hctx : exists e,
            course_context (courses_found E (Some (question_of query)) 5 (tables w))
            = Raise e).
  { destruct (courses_found E _ 5 (tables w)) as [|c0 rest] eqn:Hf; [destruct Hin|].
    unfold course_context.
    destruct (course_summaries (c0 :: rest)) as [texts|e] eqn:Hs; simpl; eauto.
    apply course_summaries_ok in Hs. rewrite List.Forall_forall in Hs.
    specialize (Hs _ Hin). congruence. }
  destruct Hctx as [e He]. split.
  - exists e. rewrite basic_rag_chain_answer. f_equal.
    unfold answer_of, context_for. now rewrite He.
  - rewrite basic_rag_chain_calls. unfold calls_of, context_for. rewrite He. simpl.
    apply Forall_app. split; [|repeat constructor].
    unfold search_calls. destruct (String.eqb user_id "unknown"); [constructor|].
    destruct (embed_query_model E _); repeat constructor.
Qed.

(** *** The course lookup *)

(** X7.  Without a query, [fetch_courses] sends an unfiltered request: the
    empty string counts as no query, and the result is the first [limit]
    rows of the course table in table order, or the empty list when the
    request fails or the table does not exist. *)
Theorem fetch_courses_without_query limit (w : World) :
  fetch_courses E (Some "") limit w = fetch_courses E None limit w /\
  new_events (fetch_courses E None limit) w =
    [EvExecute {| req_table := "courses"; req_columns := "*";
                  req_params := []; req_limit := Some limit |}] /\
  fst (fetch_courses E None limit w) =
    Ok (match fault E (EvExecute (course_request E None limit)) with
        | Some _ => []
        | None => firstn limit (default [] (tables w !! "courses"))
        end).
Proof.
  split; [|split].
  - rewrite !fetch_courses_run. reflexivity.
  - erewrite new_events_logs; [|apply fetch_courses_run]. reflexivity.
  - rewrite fetch_courses_run. simpl. unfold courses_found.
    destruct (fault E _); [reflexivity|].
    destruct (tables w !! "courses") as [rows|]; simpl; [|now destruct limit].
    unfold select_rows. simpl. do 2 f_equal.
    induction rows as [|row rest IH]; simpl; [reflexivity | now rewrite IH].
Qed.


(** *** Ingestion: what is stored *)

Lemma default_lookup_created (cs : gmap string (list Point)) name :
  cs !! "user_documents" = None ->
  default [] (<["user_documents" := []]> cs !! name) = default [] (cs !! name).
Proof.
  intros H. destruct (decide ("user_documents" = name)) as [<-|Hne].
  - now rewrite lookup_insert_eq, H.
  - now rewrite lookup_insert_ne.
Qed.

(** The embedding, the building of the points and the upsert, from a state
    in which the collection exists. *)
Lemma ingest_batch_state (documents : list Document) (user_id : string)
    (w1 : World) :
  let rest :=
    bind (embed_documents E (map page_content documents)) (fun embeddings =>
    bind (build_points E user_id 0 (combine documents embeddings)) (fun points =>
    bind (qdrant_upsert E "user_documents" points) (fun _ => ret true))) in
  (exists e, fst (rest w1) = Raise e /\ collections (snd (rest w1)) = collections w1) \/
  fst (rest w1) = Ok true.
Proof.
  simpl. unfold bind. rewrite embed_documents_run.
  destruct (embed_documents_model E _) as [embs|e]; [|left; eauto].
  rewrite build_points_run, qdrant_upsert_run. simpl.
  destruct (fault E (EvUpsert _ _)) as [e|]; [left; eauto|].
  destruct (collections w1 !! "user_documents"); [right; reflexivity | left; eauto].
Qed.

Lemma add_documents_false_keeps_points (documents : list Document)
    (user_id : string) (w : World) :
  fst (add_documents E documents user_id w) = Ok false ->
  forall name,
    default [] (collections (snd (add_documents E documents user_id w)) !! name) =
    default [] (collections w !! name).
Proof.
  unfold add_documents.
  set (rest := bind (embed_documents E _) _).
  unfold try_except, bind.
  rewrite qdrant_collection_exists_run.
  destruct (fault E (EvCollectionExists _)); [reflexivity|].
  destruct (collections w !! "user_documents") as [old|] eqn:Hc; simpl.
  - destruct (ingest_batch_state documents user_id
                (log (EvCollectionExists "user_documents") w))
      as [(e & Hr & Hst) | Hr]; fold rest in Hr; try fold rest in Hst;
      destruct (rest _) as [[b|e'] w']; simpl in *; try discriminate.
    + intros _ name. now rewrite Hst.
    + injection Hr as ->. discriminate.
  - rewrite qdrant_create_collection_run. simpl.
    destruct (fault E (EvCreateCollection _ _ _)); [reflexivity|].
    rewrite Hc.
    match goal with |- context [rest ?w1] =>
      destruct (ingest_batch_state documents user_id w1)
        as [(e & Hr & Hst) | Hr] end; fold rest in Hr; try fold rest in Hst;
      destruct (rest _) as [[b|e'] w']; simpl in *; try discriminate.
    + intros _ name. rewrite Hst. now apply default_lookup_created.
    + injection Hr as ->. discriminate.
Qed.

(** X9.  A failed ingestion stores no point: when [add_documents] returns
    [false], every collection holds the points it held before (the
    collection of user documents may have been created, empty). *)
Theorem failed_ingestion_stores_nothing (documents : list Document)
    (user_id : string) (w : World) :
  fst (add_documents E documents user_id w) = Ok false ->
  forall name,
    default [] (collections (snd (add_documents E documents user_id w)) !! name) =
    default [] (collections w !! name).
Proof. apply add_documents_false_keeps_points. Qed.

Lemma points_at_length user_id items : forall i tick,
  List.length (points_at E user_id i tick items) = List.length items.
Proof.
  induction items as [|[doc emb] rest IH]; intros i tick; simpl; auto.
Qed.

Lemma points_at_item user_id items : forall i tick k (p : Point),
  points_at E user_id i tick items !! k = Some p ->
  exists doc embedding,
    items !! k = Some (doc, embedding) /\
    p = make_point E user_id (i + k) doc embedding
          (clock E (tick + 2 * k)) (clock E (S (tick + 2 * k))).
Proof.
  induction items as [|[doc emb] rest IH]; intros i tick k p; simpl; [discriminate|].
  destruct k as [|k]; simpl.
  - intros [= <-]. exists doc, emb. rewrite !Nat.add_0_r. auto.
  - intros H. apply IH in H as (d & e & Hk & ->). exists d, e. split; [exact Hk|].
    f_equal; [lia | f_equal; lia | f_equal; lia].
Qed.

Lemma add_documents_stored (documents : list Document) (user_id : string)
    (w w' : World) (embeddings : list Vec) :
  add_documents E documents user_id w = (Ok true, w') ->
  embed_documents_model E (map page_content documents) = Ok embeddings ->
  collections w' !! "user_documents" =
    Some (upsert_points (batch_points E documents embeddings user_id (ticks w))
            (default [] (collections w !! "user_documents"))).
Proof.
  intros Hrun Hemb.
  destruct (add_documents_run E documents user_id w)
    as [(w1 & H1 & _) | (embs & w1 & H1 & (_ & _ & He & _) & Hc)];
    rewrite Hrun in H1; [discriminate|].
  injection H1 as <-. rewrite Hc, lookup_insert_eq.
  assert (embs = embeddings) as -> by congruence. reflexivity.
Qed.

(** X10.  A successful ingestion stores one point per pair of a document
    and an embedding, in order: the batch has as many points as the
    shorter of the two lists (documents beyond the embeddings returned are
    dropped without notice), the point of index [k] carries the text of
    document [k], embedding [k], the user id, and the source of the
    document or ["uploaded_file"]. *)
Theorem ingested_batch_contents (documents : list Document) (user_id : string)
    (w w' : World) (embeddings : list Vec) :
  add_documents E documents user_id w = (Ok true, w') ->
  embed_documents_model E (map page_content documents) = Ok embeddings ->
  let pts := batch_points E documents embeddings user_id (ticks w) in
  collections w' !! "user_documents" =
    Some (upsert_points pts (default [] (collections w !! "user_documents"))) /\
  List.length pts = Nat.min (List.length documents) (List.length embeddings) /\
  (forall k (p : Point), pts !! k = Some p ->
     exists doc embedding,
       documents !! k = Some doc /\ embeddings !! k = Some embedding /\
       point_vector p = embedding /\
       p_content (point_payload p) = page_content doc /\
       p_user_id (point_payload p) = user_id /\
       p_source (point_payload p) = get_default (metadata doc) "source" "uploaded_file").
Proof.
  intros Hrun Hemb pts. split; [|split].
  - now apply add_documents_stored.
  - unfold pts, batch_points. rewrite points_at_length. apply length_combine.
  - intros k p Hk. unfold pts, batch_points in Hk.
    apply points_at_item in Hk as (doc & emb & Hk & ->).
    exists doc, emb.
    assert (Hd : documents !! k = Some doc /\ embeddings !! k = Some emb).
    { clear -Hk. revert embeddings k Hk.
      induction documents as [|d ds IH]; intros [|e es] [|k]; simpl;
        try discriminate.
      - intros [= -> ->]. auto.
      - intros H. now apply IH in H. }
    destruct Hd. repeat split; auto.
Qed.

(** *** From an upload to an answer *)

Lemma upsert_point_In_self (p : Point) stored : In p (upsert_point p stored).
Proof.
  induction stored as [|q rest IH]; simpl; [now left|].
  destruct (String.eqb (point_id q) (point_id p)); simpl; auto.
Qed.

Lemma upsert_point_keeps (p q : Point) stored :
  In q stored -> point_id q <> point_id p -> In q (upsert_point p stored).
Proof.
  induction stored as [|r rest IH]; simpl; [tauto|].
  intros [->|Hin] Hne.
  - destruct (String.eqb_spec (point_id q) (point_id p)); [contradiction | now left].
  - destruct (String.eqb (point_id r) (point_id p)); simpl; auto.
Qed.

Lemma upsert_points_In (pts : list Point) : forall stored (p : Point),
  List.NoDup (map point_id pts) ->
  In p pts \/ (In p stored /\ ~ In (point_id p) (map point_id pts)) ->
  In p (upsert_points pts stored).
Proof.
  unfold upsert_points.
  induction pts as [|q rest IH]; intros stored p Hnd H; simpl.
  - destruct H as [[]|[H _]]. exact H.
  - inversion Hnd as [|? ? Hq Hrest]; subst. apply IH; [exact Hrest|].
    destruct H as [[->|Hin]|[Hin Hid]].
    + right. split; [apply upsert_point_In_self | exact Hq].
    + now left.
    + right. simpl in Hid. split; [|tauto].
      apply upsert_point_keeps; [exact Hin|]. intros Heq. apply Hid. now left.
Qed.

Lemma rank_insert_In_rev before (p x : Point) sorted :
  x = p \/ In x sorted -> In x (rank_insert before p sorted).
Proof.
  induction sorted as [|q rest IH]; simpl.
  - intros [->|[]]. now left.
  - destruct (before q p); simpl; intros [->|[->|H]]; auto.
Qed.

Lemma rank_In_rev before (x : Point) ps : In x ps -> In x (rank before ps).
Proof.
  induction ps as [|p rest IH]; simpl; [tauto|].
  intros [->|H]; apply rank_insert_In_rev; auto.
Qed.

Lemma rank_insert_length before (p : Point) sorted :
  List.length (rank_insert before p sorted) = S (List.length sorted).
Proof.
  induction sorted as [|q rest IH]; simpl; [reflexivity|].
  destruct (before q p); simpl; auto.
Qed.

Lemma rank_length before (ps : list Point) :
  List.length (rank before ps) = List.length ps.
Proof.
  induction ps as [|p rest IH]; simpl; [reflexivity|].
  now rewrite rank_insert_length, IH.
Qed.

Lemma satisfies_own_filter user_id (p : Point) :
  p_user_id (point_payload p) = user_id -> satisfies (user_filter user_id) p = true.
Proof.
  intros H. unfold satisfies, user_filter, cond_holds. simpl.
  rewrite H, String.eqb_refl. reflexivity.
Qed.

(** X11.  From an upload to an answer: after a successful [add_documents],
    when the embedding of the question and the search succeed and the
    collection holds at most three points of the user, the search of
    [basic_rag_chain] returns every point of the uploaded batch, and the
    context of any generation call is built from these hits. *)
Theorem uploaded_documents_are_retrieved (documents : list Document)
    (user_id query : string) (w w' : World) (embeddings : list Vec)
    (query_vector : Vec) :
  add_documents E documents user_id w = (Ok true, w') ->
  embed_documents_model E (map page_content documents) = Ok embeddings ->
  user_id <> "unknown" ->
  embed_query_model E (question_of query) = Ok query_vector ->
  fault E (EvSearch "user_documents" query_vector 3 (user_filter user_id)) = None ->
  List.length (List.filter (satisfies (user_filter user_id))
                 (default [] (collections w' !! "user_documents"))) <= 3 ->
  exists hits,
    fst (search_user_docs E (question_of query) user_id w') = Ok hits /\
    (forall p, In p (batch_points E documents embeddings user_id (ticks w)) ->
               In p hits) /\
    (forall template context question,
       In (EvInvoke template context question)
          (new_events (basic_rag_chain E query user_id) w') ->
       exists courses,
         context = full_context (context_part_of query) (user_doc_context hits) courses).
Proof.
  intros Hrun Hemb Hu Hq Hf Hfew.
  pose proof (add_documents_stored _ _ _ _ _ Hrun Hemb) as Hst.
  exists (hits_found E (question_of query) user_id (collections w')).
  split; [now rewrite search_user_docs_run|]. split.
  - intros p Hp. unfold hits_found.
    destruct (String.eqb_spec user_id "unknown") as [|_]; [contradiction|].
    rewrite Hq, Hf, Hst. rewrite Hst in Hfew. simpl in Hfew.
    unfold search_points. rewrite firstn_all2 by (now rewrite rank_length).
    apply rank_In_rev. apply List.filter_In. split.
    + apply upsert_points_In; [apply points_at_NoDup | now left].
    + apply satisfies_own_filter.
      pose proof (points_at_owner E user_id (combine documents embeddings) 0 (ticks w)) as Ho.
      rewrite List.Forall_forall in Ho. now apply Ho.
  - intros template context question. rewrite basic_rag_chain_calls.
    unfold calls_of. rewrite List.in_app_iff. intros [Hin|[Hin|Hin]].
    + exfalso. unfold search_calls in Hin.
      destruct (String.eqb user_id "unknown"); [destruct Hin|].
      rewrite Hq in Hin. destruct Hin as [Hin|[Hin|[]]]; discriminate.
    + discriminate.
    + unfold context_for in *.
      destruct (course_context _) as [courses|e]; simpl in Hin; [|destruct Hin].
      destruct Hin as [[= <- <- <-]|[]]. eauto.
Qed.

End AnswerFacts.

(** ** The pages: facts *)

(** *** The query a page composes and the pipeline takes apart *)

Lemma full_query_sep course_context user_input :
  full_query course_context user_input =
  ("User's enrolled courses:" +:+ nl +:+ course_context) +:+ question_sep +:+ user_input.
Proof. unfold full_query, question_sep. now rewrite !app_assoc. Qed.

(** What follows an occurrence of the separator decides the last part. *)
Lemma last_part_split_app sep :
  unbordered sep -> sep <> "" ->
  forall n a b d,
    String.length a <= n ->
    last_part (split sep (a +:+ sep +:+ b)) d = last_part (split sep b) d.
Proof.
  intros Hu Hne.
  assert (Hpos : 0 < String.length sep) by (destruct sep; simpl; [congruence|lia]).
  induction n as [n IH] using lt_wf_ind. intros a b d Hn.
  rewrite (split_eqn sep (a +:+ sep +:+ b)) by assumption.
  destruct (find sep (a +:+ sep +:+ b)) as [i|] eqn:eqi.
  2:{ exfalso. apply find_None in eqi. apply eqi. now exists a, b. }
  destruct (find_Some _ _ _ eqi) as (Hcut & Hi & Hfirst).
  set (q := a +:+ sep +:+ b) in *.
  set (pre0 := take i q) in *. set (rest := drop (i + String.length sep) q) in *.
  assert (Hle : i <= String.length a) by (apply (Hfirst a b); reflexivity).
  rewrite last_part_cons by apply split_nonempty.
  destruct (Nat.eq_dec i (String.length a)) as [Heq|Hneq].
  - assert (Hrest : rest = b).
    { unfold rest, q. rewrite Heq, <- length_app, <- app_assoc.
      apply drop_app_length. }
    now rewrite Hrest.
  - assert (Hq' : pre0 +:+ sep +:+ rest = a +:+ sep +:+ b) by (symmetry; exact Hcut).
    assert (Hap : String.length pre0 + String.length sep <= String.length a).
    { apply (occurrences_apart sep pre0 rest a b); auto. lia. }
    destruct (app_eq_split _ _ _ _ Hq') as (e & He & Hr); [lia|].
    assert (He2 : exists pre1, e = sep +:+ pre1).
    { rewrite He, length_app in Hap.
      destruct (app_eq_split sep rest e (sep +:+ b)) as (e1 & He1 & _);
        [exact Hr | lia | now exists e1]. }
    destruct He2 as [pre1 ->].
    assert (Hrest : rest = pre1 +:+ sep +:+ b).
    { rewrite app_assoc in Hr. now apply app_inv_head in Hr. }
    rewrite Hrest. apply (IH (String.length pre1)); [|lia].
    rewrite He, !length_app in Hn. lia.
Qed.

(** The first part of a split is what precedes the first occurrence. *)
Lemma split_first_part sep a b :
  unbordered sep -> sep <> "" ->
  exists first rest,
    split sep (a +:+ sep +:+ b) = first :: rest /\ rest <> [] /\
    (~ Occurs sep a -> first = a) /\
    (Occurs sep a -> String.length first < String.length a).
Proof.
  intros Hu Hne.
  rewrite (split_eqn sep (a +:+ sep +:+ b)) by assumption.
  destruct (find sep (a +:+ sep +:+ b)) as [i|] eqn:eqi.
  2:{ exfalso. apply find_None in eqi. apply eqi. now exists a, b. }
  destruct (find_Some _ _ _ eqi) as (Hcut & Hi & Hfirst).
  set (q := a +:+ sep +:+ b) in *.
  eexists _, _. split; [reflexivity|]. split; [apply split_nonempty|]. split.
  - intros Hno.
    assert (Hle : i <= String.length a) by (apply (Hfirst a b); reflexivity).
    destruct (Nat.eq_dec i (String.length a)) as [Heq|Hneq].
    + rewrite Heq. apply take_app_length.
    + exfalso. apply Hno.
      set (pre0 := take i q) in *. set (rest := drop (i + String.length sep) q) in *.
      assert (Hq' : pre0 +:+ sep +:+ rest = a +:+ sep +:+ b) by (symmetry; exact Hcut).
      assert (Hap : String.length pre0 + String.length sep <= String.length a).
      { apply (occurrences_apart sep pre0 rest a b); auto. lia. }
      destruct (app_eq_split _ _ _ _ Hq') as (e & He & Hr); [lia|].
      rewrite He, length_app in Hap.
      destruct (app_eq_split sep rest e (sep +:+ b)) as (e1 & He1 & _);
        [exact Hr | lia |].
      exists pre0, e1. now rewrite He, He1.
  - intros (l & r & Ha).
    assert (Hle : i <= String.length l).
    { apply (Hfirst l (r +:+ sep +:+ b)). unfold q. rewrite Ha.
      now rewrite !app_assoc. }
    rewrite <- Hi. rewrite Ha, !length_app.
    assert (0 < String.length sep) by (destruct sep; simpl; [congruence|lia]).
    lia.
Qed.

Lemma question_of_full_query (course_context user_input : string) :
  question_of (full_query course_context user_input) = question_of user_input.
Proof.
  unfold question_of. rewrite full_query_sep.
  eapply (last_part_split_app question_sep question_sep_unbordered
            question_sep_nonempty). reflexivity.
Qed.

Lemma question_of_plain (user_input : string) :
  ~ Occurs question_sep user_input -> question_of user_input = user_input.
Proof. intros Hno. unfold question_of. now rewrite split_no_occurrence. Qed.

(** X12.  The question survives the composition of the page: whatever the
    text of the enrolled courses, the question the pipeline extracts from
    the composed query is the one it extracts from the user's input alone,
    and it is the input itself when the input holds no separator. *)
Theorem composed_query_keeps_question (course_context user_input : string) :
  question_of (full_query course_context user_input) = question_of user_input /\
  (~ Occurs question_sep user_input ->
   question_of (full_query course_context user_input) = user_input).
Proof.
  split; [apply question_of_full_query|].
  intros Hno. rewrite question_of_full_query. now apply question_of_plain.
Qed.

(** X13.  The enrollment context survives the composition exactly when it
    holds no separator: the context the pipeline extracts is the heading
    and the text of the enrolled courses if and only if the separator does
    not occur in them; otherwise the context is cut short. *)
Theorem composed_query_keeps_context (course_context user_input : string) :
  let sent := "User's enrolled courses:" +:+ nl +:+ course_context in
  (context_part_of (full_query course_context user_input) = sent <->
   ~ Occurs question_sep sent) /\
  (Occurs question_sep sent ->
   String.length (context_part_of (full_query course_context user_input))
     < String.length sent).
Proof.
  intros sent. unfold context_part_of. rewrite full_query_sep. fold sent.
  destruct (split_first_part question_sep sent user_input
              question_sep_unbordered question_sep_nonempty)
    as (first & rest & -> & Hrest & Hclean & Hcut).
  destruct rest as [|x rest]; [congruence|]. simpl.
  split; [split|].
  - intros Heq Hocc. apply Hcut in Hocc. rewrite Heq in Hocc. lia.
  - exact Hclean.
  - exact Hcut.
Qed.

Section PagesFacts.

Context {Vec : Type}.
Variable E : @Env Vec.
Variable H : Host.

Local Abbreviation World := (@World Vec).
Local Abbreviation Desk := (@Desk Vec).

(** *** A chat turn *)

Lemma chat_turn_run speaker user_courses user_input user_id (w : World) course_context :
  user_input <> "" ->
  enrollment_context user_courses = Ok course_context ->
  chat_turn E speaker user_courses user_input user_id w =
  (Ok [NWrite ("**" +:+ speaker +:+ "**: " +:+
               answer_of E (full_query course_context user_input) user_id w)],
   logs (calls_of E (full_query course_context user_input) user_id w) w).
Proof.
  intros Hne Hctx. unfold chat_turn.
  destruct (String.eqb_spec user_input "") as [|_]; [contradiction|].
  rewrite Hctx. unfold bind. rewrite basic_rag_chain_run. reflexivity.
Qed.

(** X14.  A chat turn asks what was typed: for a non-empty input without
    separator and enrollment rows that can be formatted, the page displays
    the answer of [basic_rag_chain] to the composed query, the course
    lookup is made for the input itself, and any generation call carries
    the input as its question, with the template chosen from the input. *)
Theorem chat_turn_asks_what_was_typed speaker user_courses user_input user_id
    (w : World) course_context :
  user_input <> "" ->
  ~ Occurs question_sep user_input ->
  enrollment_context user_courses = Ok course_context ->
  (exists response,
     fst (basic_rag_chain E (full_query course_context user_input) user_id w)
       = Ok response /\
     fst (chat_turn E speaker user_courses user_input user_id w)
       = Ok [NWrite ("**" +:+ speaker +:+ "**: " +:+ response)]) /\
  In (EvExecute (course_request E (Some user_input) 5))
     (new_events (chat_turn E speaker user_courses user_input user_id) w) /\
  (forall template context question,
     In (EvInvoke template context question)
        (new_events (chat_turn E speaker user_courses user_input user_id) w) ->
     template = select_prompt user_input /\ question = user_input).
Proof.
  intros Hne Hno Hctx.
  pose proof (chat_turn_run speaker _ _ user_id w _ Hne Hctx) as Hrun.
  assert (Hq : question_of (full_query course_context user_input) = user_input).
  { rewrite question_of_full_query. now apply question_of_plain. }
  split; [|split].
  - eexists. split; [apply basic_rag_chain_answer|]. now rewrite Hrun.
  - rewrite (new_events_logs _ _ _ _ Hrun). unfold calls_of. rewrite Hq.
    apply List.in_or_app. right. now left.
  - intros template context question.
    rewrite (new_events_logs _ _ _ _ Hrun). unfold calls_of. rewrite Hq.
    rewrite List.in_app_iff. intros [Hin|[Hin|Hin]].
    + exfalso. unfold search_calls in Hin.
      destruct (String.eqb user_id "unknown"); [destruct Hin|].
      destruct Hin as [Hin|Hin]; [discriminate|].
      destruct (embed_query_model E user_input); [|destruct Hin].
      destruct Hin as [Hin|[]]; discriminate.
    + discriminate.
    + destruct (context_for E _ user_id w); [|destruct Hin].
      destruct Hin as [[= <- <- <-]|[]]. auto.
Qed.

(** An enrollment row the page cannot format. *)
Lemma enrollment_text_raises (course : Enrollment) :
  course !! "courses" = None \/
  (exists joined,
     course !! "courses" = Some joined /\
     (joined !! "title" = None \/ joined !! "subject" = None \/
      joined !! "description" = None)) ->
  exists key, enrollment_text course = Raise (KeyError key).
Proof.
  unfold enrollment_text, joined_field, getitem, Enrollment, Course in *.
  intros [Hc | (joined & Hc & Hj)]; rewrite Hc; simpl; [eauto|].
  destruct (joined !! "title"); simpl; [|eauto].
  destruct (joined !! "subject"); simpl; [|eauto].
  destruct (joined !! "description"); simpl; [|eauto].
  destruct Hj as [Hj|[Hj|Hj]]; discriminate.
Qed.

Lemma enrollment_text_exn (course : Enrollment) e :
  enrollment_text course = Raise e -> exists key, e = KeyError key.
Proof.
  unfold enrollment_text, joined_field, getitem, Enrollment, Course in *.
  destruct (course !! "courses") as [joined|]; simpl; [|intros [= <-]; eauto].
  destruct (joined !! "title"); simpl; [|intros [= <-]; eauto].
  destruct (joined !! "subject"); simpl; [|intros [= <-]; eauto].
  destruct (joined !! "description"); simpl; [discriminate|intros [= <-]; eauto].
Qed.

Lemma enrollment_texts_raises (user_courses : list Enrollment) (course : Enrollment) :
  In course user_courses ->
  (exists key, enrollment_text course = Raise (KeyError key)) ->
  exists key, enrollment_texts user_courses = Raise (KeyError key).
Proof.
  intros Hin [key Hbad].
  induction user_courses as [|c rest IH]; [destruct Hin|]. simpl.
  destruct (enrollment_text c) as [text|e] eqn:Hc; simpl.
  - destruct Hin as [->|Hin]; [congruence|].
    destruct (IH Hin) as [k ->]. simpl. eauto.
  - apply enrollment_text_exn in Hc as [k ->]. eauto.
Qed.

(** X15.  One incomplete enrollment row stops the turn: when a row of the
    user's enrollments has no joined course, or its course lacks the title,
    the subject or the description, the page displays the [KeyError] of a
    missing key and the pipeline is not called; the state is unchanged. *)
Theorem incomplete_enrollment_stops_the_turn speaker
    (user_courses : list Enrollment) (course : Enrollment)
    user_input user_id (w : World) :
  user_input <> "" ->
  In course user_courses ->
  course !! "courses" = None \/
  (exists joined,
     course !! "courses" = Some joined /\
     (joined !! "title" = None \/ joined !! "subject" = None \/
      joined !! "description" = None)) ->
  exists key,
    chat_turn E speaker user_courses user_input user_id w =
    (Ok [NError ("Error processing question: '" +:+ key +:+ "'")], w).
Proof.
  intros Hne Hin Hbad.
  destruct (enrollment_texts_raises user_courses course Hin
              (enrollment_text_raises course Hbad)) as [key Hr].
  exists key. unfold chat_turn.
  destruct (String.eqb_spec user_input "") as [|_]; [contradiction|].
  unfold enrollment_context. destruct user_courses as [|c rest]; [destruct Hin|].
  rewrite Hr. reflexivity.
Qed.

(** *** An upload *)

Lemma show_all (ns : list Notice) : forall d : Desk,
  fold_left (fun d n => show n d) ns d =
  {| desk_world := desk_world d; desk_files := desk_files d;
     desk_shown := desk_shown d ++ ns |}.
Proof.
  induction ns as [|n ns IH]; intros d; simpl.
  - rewrite List.app_nil_r. now destruct d.
  - rewrite IH. simpl. now rewrite <- List.app_assoc.
Qed.

Lemma add_documents_total documents user_id (w : World) :
  exists b w', add_documents E documents user_id w = (Ok b, w').
Proof.
  destruct (add_documents_run E documents user_id w)
    as [(w' & Hr & _) | (embs & w' & Hr & _)]; eauto.
Qed.

Lemma preview_length (doc : Document) : len (preview doc) <= 1003.
Proof.
  unfold preview. destruct (Nat.ltb_spec 1000 (len (page_content doc))).
  - rewrite len_app. change (len "...") with 3.
    pose proof (len_take_chars 1000 (page_content doc)). lia.
  - lia.
Qed.

Lemma preview_short (doc : Document) :
  len (page_content doc) <= 1000 -> preview doc = page_content doc.
Proof.
  intros Hs. unfold preview.
  destruct (Nat.ltb_spec 1000 (len (page_content doc))); [lia | reflexivity].
Qed.

Ltac desk_simpl :=
  unfold show, with_files, with_world; cbn [desk_files desk_world desk_shown].

(** The outcome of an upload within the size limit, by the cases of the
    body; [path] is the temporary file. *)
Lemma upload_file_run (f : Upload) (user_id : string) (d : Desk) :
  (up_size f <= 200 * 1024 * 1024)%N ->
  let path := temp_path H (up_name f) (desk_files d) in
  let file_extension := lower (snd (splitext H (up_name f))) in
  let line := NFileLine (up_name f) (up_size f) in
  let written := <[path := up_data f]> (desk_files d) in
  upload_file E H f user_id d =
  match loaders !! file_extension with
  | None =>
      (FileNotFoundError path,
       {| desk_world := desk_world d;
          desk_files := delete path written;
          desk_shown :=
            desk_shown d ++
            [line; NError ("Unsupported file type: " +:+ file_extension)] |})
  | Some loader_class =>
      match load H loader_class path written with
      | Raise e =>
          (Returns,
           {| desk_world := desk_world d;
              desk_files := delete path written;
              desk_shown :=
                desk_shown d ++
                [line; NError ("Error processing file: " +:+ str_exn e)] |})
      | Ok documents =>
          match fst (add_documents E documents user_id (desk_world d)) with
          | Raise _ => upload_file E H f user_id d
          | Ok success =>
              (FileNotFoundError path,
               {| desk_world := snd (add_documents E documents user_id (desk_world d));
                  desk_files := delete path written;
                  desk_shown :=
                    desk_shown d ++
                    line :: ingestion_notices (up_name f) documents success |})
          end
      end
  end.
Proof.
  intros Hsize path file_extension line written.
  unfold upload_file, upload_body.
  destruct (N.ltb_spec (200 * 1024 * 1024) (up_size f)) as [Hbig|_]; [lia|].
  desk_simpl.
  fold path. fold written. fold file_extension.
  destruct (loaders !! file_extension) as [loader_class|].
  - destruct (load H loader_class path written) as [documents|e].
    + destruct (add_documents_total documents user_id (desk_world d))
        as (b & w' & Hrun).
      rewrite Hrun. cbn [fst snd]. rewrite show_all.
      unfold unlink_in_body, os_unlink.
      desk_simpl.
      unfold written at 1. rewrite lookup_insert_eq.
      desk_simpl.
      rewrite lookup_delete_eq. rewrite <- List.app_assoc. reflexivity.
    + desk_simpl.
      unfold os_unlink. unfold written at 1. rewrite lookup_insert_eq.
      desk_simpl.
      rewrite <- List.app_assoc. reflexivity.
  - unfold unlink_in_body, os_unlink.
    desk_simpl.
    unfold written at 1. rewrite lookup_insert_eq.
    desk_simpl.
    rewrite lookup_delete_eq. rewrite <- List.app_assoc. reflexivity.
Qed.

Lemma upload_file_oversized (f : Upload) (user_id : string) (d : Desk) :
  (200 * 1024 * 1024 < up_size f)%N ->
  upload_file E H f user_id d =
  (Returns, show (NError "File exceeds 200MB limit") d).
Proof.
  intros Hbig. unfold upload_file, upload_body.
  destruct (N.ltb_spec (200 * 1024 * 1024) (up_size f)) as [_|Hsmall]; [|lia].
  reflexivity.
Qed.

(** X16.  An upload that goes through ends in an error: for a file within
    the size limit, the handler returns normally only when the loader
    raised; when the type is unsupported, or the documents were loaded
    (whether or not their ingestion succeeded), the body has already
    removed the temporary file and the [os.unlink] of the [finally] clause
    raises [FileNotFoundError] for it. *)
Theorem upload_ends_in_FileNotFoundError (f : Upload) (user_id : string) (d : Desk) :
  (up_size f <= 200 * 1024 * 1024)%N ->
  let path := temp_path H (up_name f) (desk_files d) in
  fst (upload_file E H f user_id d) =
  match loaders !! lower (snd (splitext H (up_name f))) with
  | None => FileNotFoundError path
  | Some loader_class =>
      match load H loader_class path (<[path := up_data f]> (desk_files d)) with
      | Ok _ => FileNotFoundError path
      | Raise _ => Returns
      end
  end.
Proof.
  intros Hsize path. rewrite (upload_file_run f user_id d Hsize). fold path.
  destruct (loaders !! _) as [loader_class|]; [|reflexivity].
  destruct (load H loader_class path _) as [documents|e]; [|reflexivity].
  destruct (add_documents_total documents user_id (desk_world d)) as (b & w' & Hrun).
  rewrite Hrun. reflexivity.
Qed.

(** X17.  No temporary file is left behind: when the path picked for the
    temporary file is new, the files after the handler are the files
    before it, however the handler ends. *)
Theorem upload_leaves_no_file (f : Upload) (user_id : string) (d : Desk) :
  desk_files d !! temp_path H (up_name f) (desk_files d) = None ->
  desk_files (snd (upload_file E H f user_id d)) = desk_files d.
Proof.
  intros Hfresh.
  destruct (N.le_gt_cases (up_size f) (200 * 1024 * 1024)) as [Hsize|Hbig].
  - rewrite (upload_file_run f user_id d Hsize).
    destruct (loaders !! _) as [loader_class|];
      [|now apply delete_insert_id].
    destruct (load H loader_class _ _) as [documents|e];
      [|now apply delete_insert_id].
    destruct (add_documents_total documents user_id (desk_world d)) as (b & w' & Hrun).
    rewrite Hrun. now apply delete_insert_id.
  - now rewrite upload_file_oversized.
Qed.

(** X18.  What an upload displays: the notices are added after the ones
    already displayed; at most one preview is shown, it is the preview of
    a loaded document and has at most 1003 characters (counted as Python
    counts them, not bytes), and it is shown only together with the notice
    of success.  A text of at most 1000 characters is its own preview. *)
Theorem upload_preview_bounded (f : Upload) (user_id : string) (d : Desk) :
  let path := temp_path H (up_name f) (desk_files d) in
  exists new,
    desk_shown (snd (upload_file E H f user_id d)) = desk_shown d ++ new /\
    List.length
      (List.filter (fun n => match n with NText _ => true | _ => false end) new) <= 1 /\
    (forall text, In (NText text) new ->
       len text <= 1003 /\
       (exists loader_class documents doc,
          load H loader_class path (<[path := up_data f]> (desk_files d)) = Ok documents /\
          List.hd_error documents = Some doc /\
          text = preview doc) /\
       In (NSuccess ("Successfully added '" +:+ up_name f +:+
                     "' to your knowledge base!")) new) /\
    (forall doc, len (page_content doc) <= 1000 -> preview doc = page_content doc).
Proof.
  intros path.
  destruct (N.le_gt_cases (up_size f) (200 * 1024 * 1024)) as [Hsize|Hbig].
  - rewrite (upload_file_run f user_id d Hsize). fold path.
    destruct (loaders !! _) as [loader_class|].
    2:{ eexists. split; [reflexivity|]. split; [simpl; lia|].
        split; [|apply preview_short].
        intros text [Hin|[Hin|[]]]; discriminate. }
    destruct (load H loader_class _ _) as [documents|e] eqn:Hload.
    2:{ eexists. split; [reflexivity|]. split; [simpl; lia|].
        split; [|apply preview_short].
        intros text [Hin|[Hin|[]]]; discriminate. }
    destruct (add_documents_total documents user_id (desk_world d)) as (b & w' & Hrun).
    rewrite Hrun. eexists. split; [reflexivity|].
    unfold ingestion_notices. destruct b.
    + split; [|split; [|apply preview_short]].
      * destruct documents as [|doc rest]; simpl; lia.
      * intros text [Hin|[Hin|Hin]]; try discriminate.
        destruct documents as [|doc rest]; [destruct Hin|].
        destruct Hin as [[= <-]|[]].
        split; [apply preview_length|]. split; [|right; now left].
        exists loader_class, (doc :: rest), doc. auto.
    + split; [simpl; lia|]. split; [|apply preview_short].
      intros text [Hin|[Hin|[]]]; discriminate.
  - rewrite upload_file_oversized by exact Hbig.
    eexists. split; [reflexivity|]. split; [simpl; lia|].
    split; [|apply preview_short].
    intros text [Hin|[]]. discriminate.
Qed.

(** X19.  A page that announced no success stored nothing: unless the
    handler displays a notice of success, every collection of the index
    holds after it the points it held before. *)
Theorem upload_without_success_stores_nothing (f : Upload) (user_id : string)
    (d : Desk) :
  exists new,
    desk_shown (snd (upload_file E H f user_id d)) = desk_shown d ++ new /\
    ((forall text, ~ In (NSuccess text) new) ->
     forall name,
       default [] (collections (desk_world (snd (upload_file E H f user_id d))) !! name) =
       default [] (collections (desk_world d) !! name)).
Proof.
  destruct (N.le_gt_cases (up_size f) (200 * 1024 * 1024)) as [Hsize|Hbig].
  - rewrite (upload_file_run f user_id d Hsize).
    destruct (loaders !! _) as [loader_class|];
      [|eexists; split; [reflexivity | reflexivity]].
    destruct (load H loader_class _ _) as [documents|e];
      [|eexists; split; [reflexivity | reflexivity]].
    destruct (add_documents_total documents user_id (desk_world d)) as (b & w' & Hrun).
    pose proof (add_documents_false_keeps_points E documents user_id (desk_world d))
      as Hkeep.
    rewrite Hrun in *. cbn [fst snd] in *.
    eexists. split; [reflexivity|]. cbn [desk_world].
    destruct b.
    + intros Hno. exfalso. eapply Hno. right. now left.
    + intros _. now apply Hkeep.
  - rewrite upload_file_oversized by exact Hbig.
    eexists. split; [reflexivity | reflexivity].
Qed.

End PagesFacts.

(** ** The scenarios of the extensions, run *)

Lemma failed_retrieval_answers_as_anonymous_witness :
  fst (basic_rag_chain demo_env "What is mitosis?" "u2" after_upload) =
  fst (basic_rag_chain demo_env "What is mitosis?" "unknown" after_upload).
Proof.
  apply (failed_retrieval_answers_as_anonymous demo_env "What is mitosis?" "u2"
           after_upload).
  do 3 right. exists [mitosis_point]. split.
  - vm_compute. reflexivity.
  - constructor; [discriminate | constructor].
Defined.

Lemma failed_course_lookup_uses_placeholder_witness :
  exists user_docs,
    last (new_events (basic_rag_chain demo_env "What is mitosis?" "u1")
            no_courses_world) =
    Some (EvInvoke (select_prompt (question_of "What is mitosis?"))
            (full_context (context_part_of "What is mitosis?") user_docs
               "No relevant courses found.")
            (question_of "What is mitosis?")).
Proof.
  apply (failed_course_lookup_uses_placeholder demo_env "What is mitosis?" "u1"
           no_courses_world).
  right. reflexivity.
Defined.

Lemma malformed_course_row_gives_apology_witness :
  (exists e, fst (basic_rag_chain demo_env "python" "u1" bare_world)
             = Ok (apology e)) /\
  Forall (fun ev : @Event nat => match ev with EvInvoke _ _ _ => False | _ => True end)
         (new_events (basic_rag_chain demo_env "python" "u1") bare_world).
Proof.
  apply (malformed_course_row_gives_apology demo_env "python" "u1" bare_world
           bare_course).
  - vm_compute. left. reflexivity.
  - vm_compute. reflexivity.
Defined.


Lemma failed_ingestion_stores_nothing_witness :
  default [] (collections (snd (add_documents mute_env [mitosis_doc] "u1" demo_world))
                !! "user_documents") =
  default [] (collections demo_world !! "user_documents").
Proof.
  apply (failed_ingestion_stores_nothing mute_env [mitosis_doc] "u1" demo_world).
  vm_compute. reflexivity.
Defined.

Lemma ingested_batch_contents_witness :
  List.length (batch_points demo_env [mitosis_doc] [25] "u1" (ticks demo_world)) =
  Nat.min 1 1.
Proof.
  destruct (ingested_batch_contents demo_env [mitosis_doc] "u1" demo_world
              after_upload [25]) as (_ & Hlen & _).
  - vm_compute. reflexivity.
  - reflexivity.
  - exact Hlen.
Defined.

Lemma uploaded_documents_are_retrieved_witness :
  exists hits,
    fst (search_user_docs demo_env (question_of "What is mitosis?") "u1" after_upload)
      = Ok hits /\
    (forall p, In p (batch_points demo_env [mitosis_doc] [25] "u1" (ticks demo_world)) ->
               In p hits) /\
    (forall template context question,
       In (EvInvoke template context question)
          (new_events (basic_rag_chain demo_env "What is mitosis?" "u1") after_upload) ->
       exists courses,
         context = full_context (context_part_of "What is mitosis?")
                     (user_doc_context hits) courses).
Proof.
  apply (uploaded_documents_are_retrieved demo_env [mitosis_doc] "u1"
           "What is mitosis?" demo_world after_upload [25] 16).
  - vm_compute. reflexivity.
  - reflexivity.
  - discriminate.
  - vm_compute. reflexivity.
  - reflexivity.
  - vm_compute. lia.
Defined.

Lemma chat_turn_asks_what_was_typed_witness :
  In (EvExecute (course_request demo_env (Some "What is mitosis?") 5))
     (new_events (chat_turn demo_env "Chat Assistant" [] "What is mitosis?" "u1")
        after_upload).
Proof.
  destruct (chat_turn_asks_what_was_typed demo_env "Chat Assistant" []
              "What is mitosis?" "u1" after_upload
              "The user has not enrolled in any courses yet.") as (_ & Hin & _).
  - discriminate.
  - intros Hocc. apply contains_iff in Hocc. vm_compute in Hocc. discriminate.
  - reflexivity.
  - exact Hin.
Defined.

Lemma incomplete_enrollment_stops_the_turn_witness :
  exists key,
    chat_turn demo_env "Chat Assistant" [orphan_enrollment] "What is mitosis?" "u1"
      after_upload =
    (Ok [NError ("Error processing question: '" +:+ key +:+ "'")], after_upload).
Proof.
  apply (incomplete_enrollment_stops_the_turn demo_env "Chat Assistant"
           [orphan_enrollment] orphan_enrollment).
  - discriminate.
  - now left.
  - left. reflexivity.
Defined.

Lemma upload_ends_in_FileNotFoundError_witness :
  fst (upload_file demo_env demo_host bio_upload "u1" empty_desk) =
  FileNotFoundError "/tmp/tmpk3x9bio.TXT".
Proof.
  rewrite (upload_ends_in_FileNotFoundError demo_env demo_host bio_upload "u1"
             empty_desk).
  - vm_compute. reflexivity.
  - vm_compute. discriminate.
Defined.

Lemma upload_leaves_no_file_witness :
  desk_files (snd (upload_file demo_env demo_host bio_upload "u1" empty_desk)) =
  desk_files empty_desk.
Proof.
  apply (upload_leaves_no_file demo_env demo_host bio_upload "u1" empty_desk).
  reflexivity.
Defined.

Lemma question_follows_last_separator_witness :
  question_of test_query = "What is financial analysis?" /\
  List.hd_error (new_events (basic_rag_chain demo_env test_query "u1") after_upload) =
    Some (EvEmbedQuery (question_of test_query)).
Proof.
  destruct (question_follows_last_separator demo_env test_query "u1" after_upload)
    as ((Hlast & _) & Hembed & _).
  split.
  - apply (Hlast ("User's enrolled courses:" +:+ nl +:+ "No enrolled courses yet.")
             "What is financial analysis?").
    + vm_compute. reflexivity.
    + apply (last_occurrence_by_search question_sep test_query
               ("User's enrolled courses:" +:+ nl +:+ "No enrolled courses yet.")
               "What is financial analysis?");
        vm_compute; reflexivity.
  - apply Hembed. discriminate.
Defined.
